(** * tubemate.io: a shallow embedding of [app.py] and [cli.py]

    The development follows the two source files.  Part I gives the
    definitions: the Python text operations the program uses, the data the
    external tool reports, and the functions of [app.py] (the HTTP variant)
    and [cli.py] (the interactive variant).  Part II defines the notions the
    properties are stated with, Part III proves the properties of the
    specification, and Part IV further properties of the code.

    Modelling conventions.
    - Text.  A Python [str] is a [string]; a character is a code point below
      256 (the Latin-1 range).  On that range the character classes below
      ([is_space], [is_digit], [lower_char]) agree with [str.isspace], the
      regular expression classes [\s], [\d] and [str.lower].
    - Numbers.  Python numbers are rationals [Q]: integers and finite floats
      embed exactly, and comparison is exact.  An integer beyond the range of
      the floats makes [float] raise.  Within that range the arithmetic is
      exact: the rounding of [math.log], which can reach the next integer a
      few units below a power of 1024, is not modelled, and no property is
      stated for such sizes.
    - Exceptions.  A computation that may raise returns [res]; an exception
      that leaves a Flask view unhandled is the HTTP 500 answer.
    - Environment.  The external tool, the JSON decoder and URL unquoting are
      parameters; the file system is explicit state, with the directories,
      regular files and symbolic links the process sees and the operations
      the system refuses. *)

From Stdlib Require Import ZArith QArith Qround String Ascii List Bool Lia Lqa.
From Stdlib Require Import Sorting.Sorted Sorting.Permutation DecimalString.
From stdpp Require Import base gmap sets.
From stdpp Require strings.

Import ListNotations.
Local Open Scope list_scope.
Local Open Scope string_scope.
Local Open Scope Z_scope.

(* ===================================================================== *)
(** * Part I: definitions *)
(* ===================================================================== *)

(** ** Exceptions *)

Inductive exn : Type :=
| IndexError
| ValueError
| AttributeError
| TypeError
| RuntimeError
| SystemExit (code : Z)
| FileNotFoundError (msg : string)
| OtherError (repr : string).

Inductive res (A : Type) : Type :=
| Ret (a : A)
| Raise (e : exn).
Arguments Ret {A} a.
Arguments Raise {A} e.

Definition bind {A B : Type} (m : res A) (f : A -> res B) : res B :=
  match m with
  | Ret a => f a
  | Raise e => Raise e
  end.

Notation "'do' x <- m ; k" := (bind m (fun x => k))
  (at level 10, x name, m at level 100, k at level 200).

(** ** Python text operations *)

Module Text.

Definition code (c : ascii) : N := N_of_ascii c.

(** [str.isspace] and the regular expression class [\s]. *)
Definition is_space (c : ascii) : bool :=
  let n := code c in
  ((9 <=? n) && (n <=? 13) || (28 <=? n) && (n <=? 32)
   || (n =? 133) || (n =? 160))%N.

(** The regular expression class [\d], and the digits [float] reads. *)
Definition is_digit (c : ascii) : bool :=
  let n := code c in ((48 <=? n) && (n <=? 57))%N.

Definition digit_val (c : ascii) : Z := Z.of_N (code c) - 48.

(** [str.lower], one character. *)
Definition lower_char (c : ascii) : ascii :=
  let n := code c in
  if ((65 <=? n) && (n <=? 90)
      || (192 <=? n) && (n <=? 222) && negb (n =? 215))%N
  then ascii_of_N (n + 32) else c.

Fixpoint lower (s : string) : string :=
  match s with
  | EmptyString => EmptyString
  | String c s' => String (lower_char c) (lower s')
  end.

Fixpoint lstrip (s : string) : string :=
  match s with
  | String c s' => if is_space c then lstrip s' else s
  | EmptyString => EmptyString
  end.

(** [rstrip] keeps a character when it is not a space or when something
    is kept after it. *)
Fixpoint rstrip (s : string) : string :=
  match s with
  | EmptyString => EmptyString
  | String c s' =>
      match rstrip s' with
      | EmptyString => if is_space c then EmptyString else String c EmptyString
      | r => String c r
      end
  end.

Definition strip (s : string) : string := lstrip (rstrip s).

(** [s.startswith(p)] *)
Definition startswith (s p : string) : bool := String.prefix p s.

(** [s.endswith(c)] for one character. *)
Fixpoint ends_with (s : string) (c : ascii) : bool :=
  match s with
  | EmptyString => false
  | String a EmptyString => Ascii.eqb a c
  | String _ s' => ends_with s' c
  end.

(** [sub in s] *)
Fixpoint contains (sub s : string) : bool :=
  String.prefix sub s
  || match s with
     | String _ s' => contains sub s'
     | EmptyString => false
     end.

(** The text after the first occurrence of [sep], or the whole text when
    [sep] does not occur: [s.split(sep, 1)[-1]]. *)
Fixpoint drop (n : nat) (s : string) : string :=
  match n, s with
  | S n', String _ s' => drop n' s'
  | _, _ => s
  end.

Fixpoint after_first_from (sep s whole : string) : string :=
  if String.prefix sep s then drop (String.length sep) s
  else match s with
       | String _ s' => after_first_from sep s' whole
       | EmptyString => whole
       end.

Definition after_first (sep s : string) : string := after_first_from sep s s.

(** Truth value of a [str]. *)
Definition nonempty (s : string) : bool :=
  match s with EmptyString => false | _ => true end.

(** [str(n)] for an integer. *)
Definition of_Z (z : Z) : string := NilEmpty.string_of_int (Z.to_int z).

Fixpoint join (sep : string) (l : list string) : string :=
  match l with
  | [] => ""
  | [x] => x
  | x :: l' => x ++ sep ++ join sep l'
  end.

(** [s.split("/")] *)
Fixpoint split_on (d : ascii) (s : string) : list string :=
  match s with
  | EmptyString => [EmptyString]
  | String c s' =>
      if Ascii.eqb c d then EmptyString :: split_on d s'
      else match split_on d s' with
           | x :: l => String c x :: l
           | [] => [String c EmptyString]
           end
  end.

(** [str.isalnum], one character: letters, decimal digits, and the
    superscript digits and fractions of the Latin-1 range. *)
Definition is_alnum (c : ascii) : bool :=
  let n := code c in
  ((48 <=? n) && (n <=? 57) || (65 <=? n) && (n <=? 90)
   || (97 <=? n) && (n <=? 122)
   || (n =? 170) || (n =? 178) || (n =? 179) || (n =? 181) || (n =? 185)
   || (n =? 186) || (188 <=? n) && (n <=? 190)
   || (192 <=? n) && (n <=? 255) && negb (n =? 215) && negb (n =? 247))%N.

(** The characters of [s] that pass [p], in order. *)
Fixpoint keep (p : ascii -> bool) (s : string) : string :=
  match s with
  | EmptyString => EmptyString
  | String c s' => if p c then String c (keep p s') else keep p s'
  end.

End Text.

(** ** Python numbers and sequences *)

Module Py.

(** [x or 0] for a number or [None]: a zero is replaced by the integer 0,
    which is equal to it. *)
Definition or0 (o : option Q) : Q :=
  match o with
  | Some q => if Qeq_bool q 0 then 0%Q else q
  | None => 0%Q
  end.

(** Truth value of a number or [None]. *)
Definition truthy_num (o : option Q) : bool :=
  match o with
  | Some q => negb (Qeq_bool q 0)
  | None => false
  end.

(** [a or b] on numbers or [None]. *)
Definition or_num (a b : option Q) : option Q :=
  if truthy_num a then a else b.

(** [l[i]]: a negative index counts from the end; outside the list it is
    an [IndexError]. *)
Definition index {A : Type} (l : list A) (i : Z) : res A :=
  let n := Z.of_nat (List.length l) in
  let j := if i <? 0 then i + n else i in
  if (j <? 0) || (n <=? j) then Raise IndexError
  else match nth_error l (Z.to_nat j) with
       | Some x => Ret x
       | None => Raise IndexError
       end.

(** The integers [float] refuses with [OverflowError]: from this one on, and
    from its opposite down, an integer rounds beyond the largest float. *)
Definition float_overflow : Z := 2 ^ 1024 - 2 ^ 970.

(** [math.floor(math.log(q, 1024))] for [0 < q], in exact arithmetic. *)
Definition floor_log1024 (q : Q) : Z :=
  if Qle_bool 1 q then Z.log2 (Qfloor q) / 10
  else - ((Z.log2_up (Qceiling (/ q)) + 9) / 10).

(** [round(q, 2)], as a number of hundredths: to the nearest, a tie to the
    even one. *)
Definition round2 (q : Q) : Z :=
  let x := (q * 100)%Q in
  let f := Qfloor x in
  match Qcompare (x - inject_Z f) (1 # 2) with
  | Lt => f
  | Gt => f + 1
  | Eq => if Z.even f then f else f + 1
  end.

(** [repr] of the float [h / 100] for [0 <= h] below the exponent
    notation: the integer part, a point, and one or two decimals. *)
Definition repr_hundredths (h : Z) : string :=
  let ip := h / 100 in
  let fr := h mod 100 in
  Text.of_Z ip ++ "." ++
  (if fr mod 10 =? 0 then Text.of_Z (fr / 10)
   else Text.of_Z (fr / 10) ++ Text.of_Z (fr mod 10)).

End Py.

(** ** [float] on text *)

Inductive pyfloat : Type :=
| Finite (q : Q)
| Infinity (negative : bool)
| NaN.

Module Float.

(** The digits after the first one of a [digitpart]: digits, each
    optionally preceded by one underscore. *)
Fixpoint digitpart_rest (s : string) : option (list Z * string) :=
  match s with
  | EmptyString => Some ([], EmptyString)
  | String c s' =>
      if Text.is_digit c then
        match digitpart_rest s' with
        | Some (ds, r) => Some (Text.digit_val c :: ds, r)
        | None => None
        end
      else if Ascii.eqb c "_" then
        match s' with
        | String d _ => if Text.is_digit d then digitpart_rest s' else None
        | EmptyString => None
        end
      else Some ([], s)
  end.

Definition digitpart (s : string) : option (list Z * string) :=
  match s with
  | String c s' =>
      if Text.is_digit c then
        match digitpart_rest s' with
        | Some (ds, r) => Some (Text.digit_val c :: ds, r)
        | None => None
        end
      else None
  | EmptyString => None
  end.

Definition starts_with_digit (s : string) : bool :=
  match s with String c _ => Text.is_digit c | EmptyString => false end.

(** [number ::= [digitpart] "." digitpart | digitpart ["."]]: the digits
    before and after the point, and the rest. *)
Definition number (s : string) : option (list Z * list Z * string) :=
  match s with
  | String "." s' =>
      match digitpart s' with
      | Some (fs, r) => Some ([], fs, r)
      | None => None
      end
  | _ =>
      match digitpart s with
      | Some (ds, String "." r) =>
          if starts_with_digit r then
            match digitpart r with
            | Some (fs, r') => Some (ds, fs, r')
            | None => None
            end
          else Some (ds, [], r)
      | Some (ds, r) => Some (ds, [], r)
      | None => None
      end
  end.

Definition signed (s : string) : bool * string :=
  match s with
  | String "+" r => (false, r)
  | String "-" r => (true, r)
  | _ => (false, s)
  end.

Definition of_digits (ds : list Z) : Z :=
  fold_left (fun a d => 10 * a + d) ds 0.

(** [exponent ::= ("e" | "E") [sign] digitpart], up to the end. *)
Definition exponent (s : string) : option Z :=
  match s with
  | EmptyString => Some 0
  | String c r =>
      if Ascii.eqb c "e" || Ascii.eqb c "E" then
        let '(neg, r') := signed r in
        match digitpart r' with
        | Some (ds, EmptyString) =>
            let e := of_digits ds in
            Some (if neg then - e else e)
        | _ => None
        end
      else None
  end.

(** [float(s)]: [None] is the [ValueError].  The spaces skipped are those of
    [Text.strip]; of these, [float] itself refuses the four separators 28 to
    31. *)
Definition parse (s : string) : option pyfloat :=
  let '(neg, r) := signed (Text.strip s) in
  let l := Text.lower r in
  if String.eqb l "inf" || String.eqb l "infinity" then Some (Infinity neg)
  else if String.eqb l "nan" then Some NaN
  else
    match number r with
    | Some (ds, fs, r') =>
        match exponent r' with
        | Some e =>
            let m := of_digits (ds ++ fs) in
            let q := (inject_Z m * Qpower 10 (e - Z.of_nat (List.length fs)))%Q in
            Some (Finite (if neg then (- q)%Q else q))
        | None => None
        end
    | None => None
    end.

End Float.

(** ** [int] on text *)

Module Int.

(** The spaces [int] skips around a number: those of [str.strip] but the
    four separators 28 to 31. *)
Definition is_space (c : ascii) : bool :=
  let n := Text.code c in
  ((9 <=? n) && (n <=? 13) || (n =? 32) || (n =? 133) || (n =? 160))%N.

Fixpoint lstrip (s : string) : string :=
  match s with
  | String c s' => if is_space c then lstrip s' else s
  | EmptyString => EmptyString
  end.

Fixpoint rstrip (s : string) : string :=
  match s with
  | EmptyString => EmptyString
  | String c s' =>
      match rstrip s' with
      | EmptyString => if is_space c then EmptyString else String c EmptyString
      | r => String c r
      end
  end.

(** [int(s)] in base ten: spaces, a sign, and digits with single
    underscores between them; [None] is the [ValueError]. *)
Definition parse (s : string) : option Z :=
  let '(neg, r) := Float.signed (lstrip (rstrip s)) in
  match Float.digitpart r with
  | Some (ds, EmptyString) =>
      let n := Float.of_digits ds in Some (if neg then - n else n)
  | _ => None
  end.

End Int.

(** ** Regular expressions

    The fragment of [re] that [progress_re] is written in, matched as [re]
    does: left to right, greedy, backtracking into the latest choice. *)

Inductive regex : Type :=
| Lit (s : string)                               (* literal text *)
| Rep (c : ascii -> bool) (lo : nat) (hi : option nat)   (* [c{lo,hi}] *)
| Opt (r : regex)                                (* [(?:r)?] *)
| Seq (r1 r2 : regex)
| Grp (name : string) (r : regex).               (* [(?P<name>r)] *)

Module Re.

Definition captures : Type := list (string * string).

Fixpoint strip_prefix (p s : string) : option string :=
  match p, s with
  | EmptyString, _ => Some s
  | String a p', String b s' => if Ascii.eqb a b then strip_prefix p' s' else None
  | String _ _, EmptyString => None
  end.

Definition more (hi : option nat) : bool :=
  match hi with Some O => false | _ => true end.

Definition dec (hi : option nat) : option nat :=
  match hi with Some n => Some (Nat.pred n) | None => None end.

(** [c{lo,hi}]: take one more character when allowed, and stop here only
    if that fails. *)
Fixpoint rep {R : Type} (c : ascii -> bool) (lo : nat) (hi : option nat)
         (s : string) (k : string -> option R) : option R :=
  let stop := match lo with O => k s | S _ => None end in
  match s with
  | String a s' =>
      if c a && more hi then
        match rep c (Nat.pred lo) (dec hi) s' k with
        | Some x => Some x
        | None => stop
        end
      else stop
  | EmptyString => stop
  end.

(** The text of [s] before its suffix [s']. *)
Definition consumed (s s' : string) : string :=
  String.substring 0 (String.length s - String.length s') s.

Fixpoint run {R : Type} (r : regex) (s : string) (cs : captures)
         (k : string -> captures -> option R) : option R :=
  match r with
  | Lit l => match strip_prefix l s with
             | Some s' => k s' cs
             | None => None
             end
  | Rep c lo hi => rep c lo hi s (fun s' => k s' cs)
  | Opt r' => match run r' s cs k with
              | Some x => Some x
              | None => k s cs
              end
  | Seq r1 r2 => run r1 s cs (fun s1 c1 => run r2 s1 c1 k)
  | Grp n r' => run r' s cs (fun s' c' => k s' ((n, consumed s s') :: c'))
  end.

(** [pattern.match(s)]: anchored at the start only. *)
Definition match_ (r : regex) (s : string) : option captures :=
  run r s [] (fun _ cs => Some cs).

(** [m.group(name)] *)
Fixpoint group (cs : captures) (name : string) : option string :=
  match cs with
  | [] => None
  | (n, v) :: cs' => if String.eqb n name then Some v else group cs' name
  end.

Definition space : ascii -> bool := Text.is_space.
Definition nonspace (c : ascii) : bool := negb (Text.is_space c).
Definition digit : ascii -> bool := Text.is_digit.
Definition plus (c : ascii -> bool) : regex := Rep c 1 None.

Fixpoint seq (l : list regex) : regex :=
  match l with
  | [] => Lit ""
  | [r] => r
  | r :: l' => Seq r (seq l')
  end.

End Re.

(* ===================================================================== *)
(** ** app.py *)
(* ===================================================================== *)

(** The argument of [human_bytes]: a number (an integer or a finite float),
    or a value on which [float] raises a [TypeError] or a [ValueError]
    ([None], a text that is not a number, a list). *)
Inductive bytes_arg : Type :=
| Num (q : Q)
| NotNum.

Definition units : list string := ["B"; "KB"; "MB"; "GB"; "TB"].

(** [human_bytes(n)] *)
Definition human_bytes (n : bytes_arg) : res (option string) :=
  match n with
  | NotNum => Ret None
  | Num q =>
      if Qle_bool (inject_Z Py.float_overflow) q
         || Qle_bool q (inject_Z (- Py.float_overflow))
      then Ret None                                (* [OverflowError], caught *)
      else if Qeq_bool q 0 then Ret (Some "0 B")
      else if Qle_bool q 0 then Raise ValueError   (* math.log of a negative *)
      else
        let i := Py.floor_log1024 q in
        let p := Qpower 1024 i in
        let s := Py.round2 (q / p) in
        do u <- Py.index units i;
        Ret (Some (Py.repr_hundredths s ++ " " ++ u))
  end.

(** *** The file system seen by [pathlib]

    A location is the list of its components from the root.  The world holds
    what the process sees: the directories, the regular files, the symbolic
    links (each with the location it leads to, itself resolved), the home
    directories, and what the system refuses to create.  A world holds no
    loop of symbolic links: every link leads somewhere. *)

Module Pathlib.

Definition path : Type := list string.

Record world : Type := {
  cwd : path;
  home_of : string -> option path;   (* [""] is the current user *)
  dirs : gset path;
  files : gset path;
  links : gmap path path;
  (* the error of [os.mkdir] on a missing name in an existing directory:
     no permission, a read-only file system, a name too long *)
  refuses : path -> option exn
}.

(** [pathlib.Path(p)]: whether it starts at the root, and its parts; empty
    parts and ["."] are dropped, [".."] is kept. *)
Record pure_path : Type := { anchored : bool; parts : list string }.

Definition keep_part (c : string) : bool :=
  negb (String.eqb c "") && negb (String.eqb c ".").

Definition parse (p : string) : pure_path :=
  {| anchored := Text.startswith p "/";
     parts := List.filter keep_part (Text.split_on "/" p) |}.

(** A text with a NUL character is no name: the system calls refuse it with
    a [ValueError]. *)
Fixpoint has_nul (s : string) : bool :=
  match s with
  | EmptyString => false
  | String c s' => Ascii.eqb c Ascii.zero || has_nul s'
  end.

(** [Path.expanduser()] *)
Definition expanduser (w : world) (pp : pure_path) : res pure_path :=
  if anchored pp then Ret pp
  else match parts pp with
       | String "~" user :: rest =>
           if has_nul user then Raise ValueError
           else match home_of w user with
                | Some h =>
                    Ret {| anchored := true;
                           parts := (List.filter keep_part h ++ rest)%list |}
                | None => Raise RuntimeError
                end
       | _ => Ret pp
       end.

(** One component of [os.path.realpath]: [".."] drops the last component;
    a name is looked up under the location reached so far (a directory is
    entered, a symbolic link is followed, a name that does not exist or a
    regular file is kept as written). *)
Definition enter (w : world) (acc : path) (c : string) : res path :=
  if String.eqb c ".." then Ret (removelast acc)
  else
    let newpath := (acc ++ [c])%list in
    if bool_decide (newpath ∈ dirs w) then Ret newpath
    else if has_nul c then Raise ValueError
    else match links w !! newpath with
         | Some target => Ret target
         | None => Ret newpath
         end.

Fixpoint walk (w : world) (l : list string) (acc : path) : res path :=
  match l with
  | [] => Ret acc
  | c :: l' => do acc' <- enter w acc c; walk w l' acc'
  end.

(** [Path.resolve()] *)
Definition resolve (w : world) (pp : pure_path) : res path :=
  walk w (parts pp) (if anchored pp then [] else cwd w).

Fixpoint prefixes (t : path) : list path :=
  [] :: match t with
        | [] => []
        | c :: t' => List.map (cons c) (prefixes t')
        end.

Definition add_dir (a : path) (w : world) : world :=
  {| cwd := cwd w; home_of := home_of w; dirs := dirs w ∪ {[ a ]};
     files := files w; links := links w; refuses := refuses w |}.

(** The directories from the root down to [t], the shortest first: one that
    exists is passed, a regular file in the way ends the call, a missing one
    is created unless the system refuses. *)
Fixpoint mkdir_each (t : path) (l : list path) (w : world) : res unit * world :=
  match l with
  | [] => (Ret tt, w)
  | a :: l' =>
      if bool_decide (a ∈ dirs w) then mkdir_each t l' w
      else if bool_decide (a ∈ files w)
      then (Raise (OtherError (if bool_decide (a = t) then "FileExistsError"
                               else "NotADirectoryError")), w)
      else match refuses w a with
           | Some e => (Raise e, w)
           | None => mkdir_each t l' (add_dir a w)
           end
  end.

(** [Path.mkdir(parents=True, exist_ok=True)] *)
Definition mkdir_parents (t : path) (w : world) : res unit * world :=
  mkdir_each t (prefixes t) w.

(** [str(path)] of an absolute path. *)
Definition render (t : path) : string := "/" ++ Text.join "/" t.

End Pathlib.

(** [safe_path(p)] *)
Definition safe_path (p : string) (w : Pathlib.world)
  : res string * Pathlib.world :=
  if negb (Text.nonempty p) then (Ret (Pathlib.render (Pathlib.cwd w)), w)
  else
    match (do e <- Pathlib.expanduser w (Pathlib.parse p);
           Pathlib.resolve w e) with
    | Raise x => (Raise x, w)
    | Ret target =>
        match Pathlib.mkdir_parents target w with
        | (Ret _, w') => (Ret (Pathlib.render target), w')
        | (Raise x, w') => (Raise x, w')
        end
    end.

(** [default_playlist_format()] *)
Definition default_playlist_format : string :=
  "bv*[height<=720]+ba/b[height<=720]".

(** [is_probably_playlist(url)] *)
Definition is_probably_playlist (url : string) : bool :=
  let u := Text.lower url in
  Text.contains "list=" u || Text.contains "/playlist" u.

(** *** JSON sent by a caller

    The body of a request is any JSON document; [JNull] also stands for a
    body that is absent or does not parse ([get_json(silent=True)] is then
    [None]). *)

#[local] Unset Elimination Schemes.
Inductive json : Type :=
| JNull
| JBool (b : bool)
| JNum (q : Q)
| JStr (s : string)
| JArr (l : list json)
| JObj (members : list (string * json)).
#[local] Set Elimination Schemes.

Module Json.

(** Truth value. *)
Definition truthy (j : json) : bool :=
  match j with
  | JNull => false
  | JBool b => b
  | JNum q => negb (Qeq_bool q 0)
  | JStr s => Text.nonempty s
  | JArr l => match l with [] => false | _ => true end
  | JObj m => match m with [] => false | _ => true end
  end.

(** [d.get(k)] on the members of an object: the last member named [k],
    as [json.loads] keeps it, or [None]. *)
Definition get (k : string) (m : list (string * json)) : json :=
  fold_left (fun acc kv => if String.eqb (fst kv) k then snd kv else acc)
            m JNull.

(** [j.get(k)]: only a [dict] has the method. *)
Definition dict_get (j : json) (k : string) : res json :=
  match j with
  | JObj m => Ret (get k m)
  | _ => Raise AttributeError
  end.

End Json.

(** *** What the tool reports

    [yt-dlp -J] prints one JSON object (or [null]); its fields have the
    types of the tool's schema, so they are read into records.  A field of
    the top-level object is missing, [null], or has a value. *)

Inductive field (A : Type) : Type :=
| Missing
| Null
| Val (a : A).
Arguments Missing {A}.
Arguments Null {A}.
Arguments Val {A} a.

(** [d.get(k)] and [d.get(k, default)]; [None] is JSON [null]. *)
Definition get {A : Type} (f : field A) : option A :=
  match f with Val a => Some a | _ => None end.

Definition get_default {A : Type} (f : field A) (d : A) : option A :=
  match f with Val a => Some a | Null => None | Missing => Some d end.

(** One format descriptor; every field is read with [f.get]. *)
Record format : Type := {
  f_format_id : option string;
  f_vcodec : option string;
  f_acodec : option string;
  f_height : option Q;
  f_fps : option Q;
  f_ext : option string;
  f_abr : option Q;
  f_filesize : option Q;
  f_filesize_approx : option Q
}.

(** One entry of a playlist: an object, whose ["url"] is read with
    [entry.get("url")] and whose ["title"] with a default, or a value that
    is no object ([null], a text). *)
Inductive entry : Type :=
| Entry (e_url : option string) (e_title : field string)
| NotObject.

Record info : Type := {
  i_title : field string;
  i_formats : field (list format);
  i_entries : field (list entry);
  i_more : bool                      (* the object has other members *)
}.

(** Truth value of the decoded document: [None] is JSON [null]. *)
Definition present {A : Type} (f : field A) : bool :=
  match f with Missing => false | _ => true end.

Definition truthy_data (d : option info) : bool :=
  match d with
  | None => false
  | Some i => present (i_title i) || present (i_formats i)
              || present (i_entries i) || i_more i
  end.

Definition truthy_list {A : Type} (o : option (list A)) : bool :=
  match o with Some (_ :: _) => true | _ => false end.

Definition truthy_str (o : option string) : bool :=
  match o with Some s => Text.nonempty s | None => false end.

(** [data.get("formats")], [data.get("entries")], [data.get("title")] for a
    truthy [data]. *)
Definition data_formats (d : option info) : option (list format) :=
  match d with Some i => get (i_formats i) | None => None end.

Definition data_entries (d : option info) : option (list entry) :=
  match d with Some i => get (i_entries i) | None => None end.

Definition data_title (d : option info) : option string :=
  match d with Some i => get (i_title i) | None => None end.

(** *** What the endpoint answers *)

(** The dictionary [it] built for one descriptor. *)
Record item : Type := {
  format_id : option string;
  height : option Q;
  fps : option Q;
  ext : option string;
  abr : option Q;
  filesize : option Q;
  filesize_hr : option string
}.

Inductive body : Type :=
| ErrorBody (error : string)
| FormatsBody (title : option string) (is_playlist : bool)
              (video_formats audio_formats : list item).

Record response : Type := { status : Z; payload : body }.

(** [jsonify(b)] and [jsonify(b), code] *)
Definition jsonify (b : body) : response := {| status := 200; payload := b |}.
Definition jsonify_code (b : body) (c : Z) : response :=
  {| status := c; payload := b |}.

Record formats_request : Type := {
  args_url : option string;          (* [request.args.get("url")] *)
  is_json : bool;                    (* [request.is_json] *)
  get_json : json                    (* [request.get_json(silent=True)] *)
}.

(** *** Sorting

    [list.sort(key=..., reverse=True)] is stable: it yields the elements in
    non-increasing key order and keeps the order of elements with equal
    keys.  It is modelled by the insertion sort with that result. *)

Module Sort.
Section WithKey.
Context {A K : Type} (key : A -> K) (lt : K -> K -> bool).

Fixpoint insert (x : A) (l : list A) : list A :=
  match l with
  | [] => [x]
  | y :: l' => if lt (key x) (key y) then y :: insert x l' else x :: l
  end.

Definition sort_reverse (l : list A) : list A := fold_right insert [] l.
End WithKey.

Definition Qltb (a b : Q) : bool :=
  match Qcompare a b with Lt => true | _ => false end.

(** Order of two-element tuples: the first components decide unless they
    are equal. *)
Definition pair_ltb (a b : Q * Q) : bool :=
  if Qeq_bool (fst a) (fst b) then Qltb (snd a) (snd b)
  else Qltb (fst a) (fst b).
End Sort.

Definition video_key (x : item) : Q * Q := (Py.or0 (height x), Py.or0 (fps x)).
Definition audio_key (x : item) : Q := Py.or0 (abr x).

(** *** [get_formats_api] *)

(** The test [c != "none"] on a codec read with [f.get]. *)
Definition is_none (c : option string) : bool :=
  match c with Some s => String.eqb s "none" | None => false end.

(** The dictionary [it] of one descriptor, built at the start of the body of
    the loop over [formats]. *)
Definition make_item (f : format) : res item :=
  let size := Py.or_num (f_filesize f) (f_filesize_approx f) in
  do hr <- (if Py.truthy_num size
            then match size with
                 | Some q => human_bytes (Num q)
                 | None => Ret None
                 end
            else Ret None);
  Ret {| format_id := f_format_id f; height := f_height f;
         fps := f_fps f; ext := f_ext f; abr := f_abr f;
         filesize := size; filesize_hr := hr |}.

(** The body of the loop: append [it] to one list or to none. *)
Definition classify_step (acc : list item * list item) (f : format)
  : res (list item * list item) :=
  let vcodec := f_vcodec f in
  let acodec := f_acodec f in
  do it <- make_item f;
  if negb (is_none vcodec) && is_none acodec
  then Ret (fst acc ++ [it], snd acc)%list
  else if negb (is_none acodec) && is_none vcodec
  then Ret (fst acc, snd acc ++ [it])%list
  else Ret acc.

Fixpoint classify_loop (formats : list format) (acc : list item * list item)
  : res (list item * list item) :=
  match formats with
  | [] => Ret acc
  | f :: rest => do acc' <- classify_step acc f; classify_loop rest acc'
  end.

Section Api.

(** The executables found at start-up; both names are never empty. *)
Variable YT_DLP FFMPEG : string.

(** [subprocess.run(cmd, capture_output=True, text=True)]: standard
    output, standard error and exit code, or [None] when the executable
    is not found. *)
Variable subprocess_run : list string -> option (string * string * Z).

(** [json.loads]: the message of a [JSONDecodeError], or the document. *)
Variable json_loads : string -> string + option info.

(** [run_cmd_once(cmd)] *)
Definition run_cmd_once (cmd : list string) : string * string * Z :=
  match subprocess_run cmd with
  | Some r => r
  | None => ("", "Command not found: " ++ hd "" cmd, 127)
  end.

(** The command of [fetch_formats_for]. *)
Definition fetch_cmd (given_url : string) (extra_args : list string)
  : list string := ([YT_DLP; "-J"] ++ extra_args ++ [given_url])%list.

(** [fetch_formats_for(given_url, extra_args)]: the pair [(data, error)]. *)
Definition fetch_formats_for (given_url : string) (extra_args : list string)
  : option info * option string :=
  let '(out, err, code) := run_cmd_once (fetch_cmd given_url extra_args) in
  let raw_json :=
    if Text.nonempty (Text.strip out) then Text.strip out
    else Text.strip err in
  if negb (Text.nonempty raw_json)
  then (None, Some ("No output from yt-dlp (exit " ++ Text.of_Z code ++ ")"))
  else match json_loads raw_json with
       | inr d => (d, None)
       | inl e => (None, Some ("Invalid JSON from yt-dlp: " ++ e))
       end.

Definition playlist_body (t : string) : body := FormatsBody (Some t) true [] [].

(** The end of [get_formats_api], from the second test of [data]: the 404
    answer, or the classified and sorted lists. *)
Definition answer_formats (data : option info) (error : option string)
  : res response :=
  if negb (truthy_data data) || negb (truthy_list (data_formats data))
  then Ret (jsonify_code
              (ErrorBody (if truthy_str error then default "" error
                          else "No formats found")) 404)
  else
    let formats := default [] (data_formats data) in
    do lists <- classify_loop formats ([], []);
    let video := Sort.sort_reverse video_key Sort.pair_ltb (fst lists) in
    let audio := Sort.sort_reverse audio_key Sort.Qltb (snd lists) in
    Ret (jsonify (FormatsBody
           (match data with
            | Some i => get_default (i_title i) "video"
            | None => None
            end) false video audio)).

(** The part of [get_formats_api] after the playlist test: the commands
    run, in order, and the answer. *)
Definition list_formats (url : string) : list (list string) * res response :=
  let '(data, error) := fetch_formats_for url ["--no-playlist"] in
  let first := fetch_cmd url ["--no-playlist"] in
  if negb (truthy_data data) || negb (truthy_list (data_formats data)) then
    let '(data, error) := fetch_formats_for url [] in
    let cmds := [first; fetch_cmd url []] in
    if truthy_data data && truthy_list (data_entries data)
       && negb (truthy_list (data_formats data))
    then (cmds, Ret (jsonify (playlist_body
            (if truthy_str (data_title data)
             then default "" (data_title data) else "Playlist"))))
    else (cmds, answer_formats data error)
  else ([first], answer_formats data error).

(** [get_formats_api()] *)
Definition get_formats_api (r : formats_request)
  : list (list string) * res response :=
  let url0 := match args_url r with Some s => JStr s | None => JNull end in
  let url1 :=
    if negb (Json.truthy url0) && is_json r then
      let payload := if Json.truthy (get_json r) then get_json r else JObj [] in
      Json.dict_get payload "url"
    else Ret url0 in
  match url1 with
  | Raise e => ([], Raise e)
  | Ret url =>
      if negb (Json.truthy url)
      then ([], Ret (jsonify_code (ErrorBody "Missing url") 400))
      else match url with
           | JStr u =>
               if is_probably_playlist u
               then ([], Ret (jsonify (playlist_body "Playlist")))
               else list_formats u
           | _ => ([], Raise AttributeError)    (* [url.lower()] *)
           end
  end.

(** *** [progress] *)

(** [urllib.parse.unquote] *)
Variable unquote : string -> string.

Record progress_request : Type := {
  p_url : option string;
  p_quality : option string;
  p_download_path : option string;
  p_is_playlist : option string
}.

(** [request.args.get(name, d)] *)
Definition arg (a : option string) (d : string) : string := default d a.

(** [os.path.join(a, *l)] on POSIX. *)
Definition join2 (a b : string) : string :=
  if Text.startswith b "/" then b
  else if negb (Text.nonempty a) || Text.ends_with a "/"
  then a ++ b
  else a ++ "/" ++ b.

Definition path_join (a : string) (l : list string) : string :=
  fold_left join2 l a.

Inductive progress_result : Type :=
| Answer (r : response)
| EventStream (cmd : list string).   (* [Response(sse_stream(), ...)] *)

(** The values [progress] reads from the query. *)
Definition req_url (r : progress_request) : string :=
  Text.strip (arg (p_url r) "").

Definition req_quality (r : progress_request) : string :=
  Text.strip (arg (p_quality r) "").

Definition req_download_path (r : progress_request) : string :=
  unquote (Text.strip (arg (p_download_path r) "")).

Definition force_playlist (r : progress_request) : bool :=
  let v := Text.lower (arg (p_is_playlist r) "false") in
  String.eqb v "1" || String.eqb v "true" || String.eqb v "yes".

Definition playlist_mode (r : progress_request) : bool :=
  force_playlist r || is_probably_playlist (req_url r).

(** The arguments added when [FFMPEG] is set. *)
Definition ffmpeg_args : list string :=
  if Text.nonempty FFMPEG then ["--ffmpeg-location"; FFMPEG] else [].

(** The view up to the command line it builds; [safe_path] runs first. *)
Definition progress (r : progress_request) (w : Pathlib.world)
  : res progress_result * Pathlib.world :=
  let url := req_url r in
  let quality := req_quality r in
  let '(dp, w') := safe_path (req_download_path r) w in
  (do download_path <- dp;
   if negb (Text.nonempty url)
   then Ret (Answer (jsonify_code (ErrorBody "Missing url") 400))
   else
     let cmd := [YT_DLP; "--newline"] in
     if playlist_mode r then
       let out_tmpl :=
         path_join download_path
                   ["%(playlist_title,channel)s"; "%(title)s.%(ext)s"] in
       let fmt := default_playlist_format in
       Ret (EventStream (cmd ++ ["-f"; fmt; "--yes-playlist"] ++ ffmpeg_args
                             ++ ["-o"; out_tmpl; url])%list)
     else
       let out_tmpl := path_join download_path ["%(title)s.%(ext)s"] in
       if negb (Text.nonempty quality)
       then Ret (Answer (jsonify_code
               (ErrorBody "Missing quality (vfmt or vfmt+afmt) for single video")
               400))
       else
         let quality :=
           if negb (Text.contains "+" quality) then quality ++ "+ba"
           else quality in
         Ret (EventStream (cmd ++ ["-f"; quality; "--no-playlist"]
                               ++ ffmpeg_args ++ ["-o"; out_tmpl; url])%list),
   w').

End Api.

(** *** The event stream of [progress] *)

(** [progress_re]: the text [[download]], spaces, the group [pct] (one to
    three digits, then optionally a point and digits), [%], and the groups
    [size], [speed] and [eta] (runs of non-space characters) after [of],
    [at] and [ETA], each separated by spaces. *)
Definition progress_re : regex :=
  Re.seq [Lit "[download]"; Re.plus Re.space;
          Grp "pct" (Seq (Rep Re.digit 1 (Some 3%nat))
                         (Opt (Seq (Lit ".") (Re.plus Re.digit))));
          Lit "%"; Re.plus Re.space; Lit "of"; Re.plus Re.space;
          Grp "size" (Re.plus Re.nonspace);
          Re.plus Re.space; Lit "at"; Re.plus Re.space;
          Grp "speed" (Re.plus Re.nonspace);
          Re.plus Re.space; Lit "ETA"; Re.plus Re.space;
          Grp "eta" (Re.plus Re.nonspace)].

(** The dictionaries given to [send], by their ["status"]. *)
Inductive event : Type :=
| EvStarting
| EvDownloading (percent : option pyfloat) (size speed eta : option string)
| EvDestination (message : string)
| EvAlready (message : string)
| EvMerging (message : string)
| EvPostprocess (message : string)
| EvInfo (message : string)
| EvError (message : string)
| EvFinished.

(** The body of the loop over the lines of the process: the event sent for
    one line, if any. *)
Definition handle_line (line : string) : option event :=
  let line := Text.rstrip line in
  match Re.match_ progress_re line with
  | Some m =>
      let pct := match Re.group m "pct" with
                 | Some t => Float.parse t      (* [None]: the [except] branch *)
                 | None => None
                 end in
      Some (EvDownloading pct (Re.group m "size") (Re.group m "speed")
                          (Re.group m "eta"))
  | None =>
      if Text.startswith line "[download] Destination:"
      then Some (EvDestination (Text.strip (Text.after_first "Destination:" line)))
      else if Text.contains "has already been downloaded" line
      then Some (EvAlready (Text.strip line))
      else if Text.startswith line "[Merger]"
      then Some (EvMerging (Text.strip line))
      else if Text.startswith line "[ExtractAudio]"
      then Some (EvPostprocess (Text.strip line))
      else if Text.startswith line "[youtube]" || Text.startswith line "[info]"
      then Some (EvInfo (Text.strip line))
      else if Text.startswith line "ERROR:"
      then Some (EvError (Text.strip line))
      else None
  end.

Fixpoint content_events (lines : list string) : list event :=
  match lines with
  | [] => []
  | l :: rest =>
      match handle_line l with
      | Some e => e :: content_events rest
      | None => content_events rest
      end
  end.

(** What [subprocess.Popen(cmd, ...)] and the process do during one run. *)
Inductive popen_run : Type :=
| NotFound (msg : string)
    (* the launch raises [FileNotFoundError]; [msg] is [str(e)] *)
| Failed (lines : list string) (repr : string)
    (* another [Exception] at the launch or while reading, after [lines] *)
| Exited (lines : list string) (ret : Z).
    (* the output ends and [proc.wait()] returns [ret] *)

(** [sse_stream()]: the events sent, in order, when the stream is read to
    its end. *)
Definition sse_stream (run : popen_run) : list event :=
  EvStarting ::
  match run with
  | NotFound msg => [EvError msg]
  | Failed lines repr => content_events lines ++ [EvError repr]
  | Exited lines ret =>
      content_events lines ++
      [if ret =? 0 then EvFinished
       else EvError ("yt-dlp exited with code " ++ Text.of_Z ret)]
  end%list.

(* ===================================================================== *)
(** ** cli.py *)
(* ===================================================================== *)

(** The interactive variant works in its current directory; the state is
    what the names there are: a file (or a link to something that exists),
    which the process may remove or not, a directory, or a symbolic link
    that leads nowhere.  A subprocess may change it in any way. *)

Module Cli.

Inductive node : Type :=
| RegularFile (removable : bool)
| Directory
| BrokenLink.

Notation files := (gmap string node).

(** What [subprocess.run(cmd, capture_output=True, text=True)] does. *)
Inductive run_outcome : Type :=
| Completed (stdout stderr : string) (returncode : Z)
| NoSuchCommand                       (* [FileNotFoundError] *)
| Raised (e : exn).                   (* any other exception *)

(** Computations on the files that may raise. *)
Definition M (A : Type) : Type := files -> res A * files.

Definition ret {A : Type} (a : A) : M A := fun fs => (Ret a, fs).

Definition raise {A : Type} (e : exn) : M A := fun fs => (Raise e, fs).

Definition bindM {A B : Type} (m : M A) (f : A -> M B) : M B :=
  fun fs => match m fs with
            | (Ret a, fs') => f a fs'
            | (Raise e, fs') => (Raise e, fs')
            end.

(** [try: body finally: fin]: [fin] runs however [body] ends, and the
    outcome of [body] stands unless [fin] raises. *)
Definition try_finally {A : Type} (body : M A) (fin : M unit) : M A :=
  fun fs => let '(r, fs1) := body fs in
            match fin fs1 with
            | (Ret _, fs2) => (r, fs2)
            | (Raise e, fs2) => (Raise e, fs2)
            end.

(** [os.path.exists(f)]: a link that leads nowhere does not count. *)
Definition exists_ (f : string) : M bool :=
  fun fs => (Ret match fs !! f with
                 | Some (RegularFile _) | Some Directory => true
                 | Some BrokenLink | None => false
                 end, fs).

(** [os.remove(f)]: it removes a file or a link when the process may, and
    raises otherwise. *)
Definition remove (f : string) : M unit :=
  fun fs => match fs !! f with
            | Some (RegularFile true) | Some BrokenLink => (Ret tt, delete f fs)
            | Some (RegularFile false) =>
                (Raise (OtherError "PermissionError"), fs)
            | Some Directory => (Raise (OtherError "IsADirectoryError"), fs)
            | None => (Raise (FileNotFoundError f), fs)
            end.

Notation "'run' x <- m ; k" := (bindM m (fun x => k))
  (at level 10, x name, m at level 100, k at level 200).

Section Program.

Variable YT_DLP FFMPEG : string.
Variable subprocess_run : list string -> files -> run_outcome * files.
Variable json_loads : string -> string + option info.

(** [run_cmd(cmd)]: the standard output, [None] after a failure;
    [sys.exit(1)] when the executable is missing. *)
Definition run_cmd (cmd : list string) : M (option string) :=
  fun fs => match subprocess_run cmd fs with
            | (Completed out _ code, fs') =>
                if negb (code =? 0) then (Ret None, fs')
                else (Ret (Some out), fs')
            | (NoSuchCommand, fs') => (Raise (SystemExit 1), fs')
            | (Raised e, fs') => (Raise e, fs')
            end.

(** The loop of [get_formats]: the descriptors themselves are kept. *)
Definition classify_step (acc : list format * list format) (f : format)
  : list format * list format :=
  if negb (is_none (f_vcodec f)) && is_none (f_acodec f)
  then (fst acc ++ [f], snd acc)%list
  else if negb (is_none (f_acodec f)) && is_none (f_vcodec f)
  then (fst acc, snd acc ++ [f])%list
  else acc.

Definition classify_loop (formats : list format)
  : list format * list format :=
  fold_left classify_step formats ([], []).

(** [get_formats(url)]: [None] is the triple [(None, None, None)]. *)
Definition get_formats (url : string)
  : M (option (option string * list format * list format)) :=
  run output <- run_cmd [YT_DLP; "-J"; "--no-playlist"; url];
  if negb (truthy_str output) then ret None
  else
    match json_loads (default "" output) with
    | inl _ => ret None
    | inr None => raise AttributeError            (* [None.get] *)
    | inr (Some data) =>
        let title := get_default (i_title data) "video" in
        match get_default (i_formats data) [] with
        | None => raise TypeError                 (* [for f in None] *)
        | Some formats =>
            let lists := classify_loop formats in
            ret (Some (title, fst lists, snd lists))
        end
    end.

Definition video_file : string := "video_temp.mp4".
Definition audio_file : string := "audio_temp.m4a".

(** The [finally] block of [download_and_merge]. *)
Definition cleanup_one (f : string) : M unit :=
  run e <- exists_ f; if e then remove f else ret tt.

Definition cleanup : M unit :=
  run _ <- cleanup_one video_file; cleanup_one audio_file.

(** The [try] block of [download_and_merge]. *)
Definition download_steps (url video_fmt audio_fmt output_name : string)
  : M bool :=
  run v <- run_cmd [YT_DLP; "-f"; video_fmt; "-o"; video_file; url];
  match v with
  | None => ret false
  | Some _ =>
      run a <- run_cmd [YT_DLP; "-f"; audio_fmt; "-o"; audio_file; url];
      match a with
      | None => ret false
      | Some _ =>
          run m <- run_cmd [FFMPEG; "-y"; "-i"; video_file;
                            "-i"; audio_file; "-c"; "copy"; output_name];
          match m with
          | None => ret false
          | Some _ => ret true
          end
      end
  end.

(** [download_and_merge(url, video_fmt, audio_fmt, output_name)] *)
Definition download_and_merge (url video_fmt audio_fmt output_name : string)
  : M bool :=
  try_finally (download_steps url video_fmt audio_fmt output_name) cleanup.

(** [safe_filename(name)] *)
Definition keep_char (c : ascii) : bool :=
  Text.is_alnum c || Ascii.eqb c " " || Ascii.eqb c "_" || Ascii.eqb c "-".

Definition safe_filename (name : string) : string :=
  Text.strip (Text.keep keep_char name).

(** The command of [download_playlist] for the entry number [i], when there
    is one.  On an entry that is no object [entry.get] raises; the title of
    an entry without ["title"] is [video_<i>], and a title that is [null]
    makes the loop of [safe_filename] raise; an entry without ["url"] puts
    [None] in the command, which [subprocess.run] refuses before it starts
    anything. *)
Definition playlist_cmd (i : Z) (e : entry) : res (list string) :=
  match e with
  | NotObject => Raise AttributeError
  | Entry vid_id title =>
      match get_default title ("video_" ++ Text.of_Z i) with
      | None => Raise TypeError
      | Some title =>
          let safe_title_str := safe_filename title in
          match vid_id with
          | None => Raise TypeError
          | Some vid_id =>
              Ret [YT_DLP; "-f"; "bv*[height<=720]+ba/b[height<=720]";
                   "-o"; safe_title_str ++ ".%(ext)s"; vid_id]
          end
      end
  end.

(** The body of the loop of [download_playlist]; the outcome of the command
    is only printed. *)
Definition playlist_item (i : Z) (e : entry) : M unit :=
  match playlist_cmd i e with
  | Raise x => raise x
  | Ret cmd => run _ <- run_cmd cmd; ret tt
  end.

Fixpoint playlist_loop (i : Z) (entries : list entry) : M unit :=
  match entries with
  | [] => ret tt
  | e :: rest => run _ <- playlist_item i e; playlist_loop (i + 1) rest
  end.

(** [download_playlist(url)] *)
Definition download_playlist (url : string) : M unit :=
  run output <- run_cmd [YT_DLP; "-J"; "--flat-playlist"; url];
  if negb (truthy_str output) then ret tt
  else
    match json_loads (default "" output) with
    | inl _ => ret tt
    | inr None => raise AttributeError              (* [None.get] *)
    | inr (Some data) =>
        let entries := get_default (i_entries data) [] in
        if negb (truthy_list entries) then ret tt
        else playlist_loop 1 (default [] entries)
    end.

(** [f[key]] on a descriptor: a field that is [None] is a missing key. *)
Definition subscript {A : Type} (o : option A) : res A :=
  match o with
  | Some a => Ret a
  | None => Raise (OtherError "KeyError")
  end.

(** The listing printed by [choose_video_format] reads [f["format_id"]] and
    [f["ext"]] of every format. *)
Fixpoint print_listing (video_formats : list format) : res unit :=
  match video_formats with
  | [] => Ret tt
  | f :: rest =>
      do _ <- subscript (f_format_id f);
      do _ <- subscript (f_ext f);
      print_listing rest
  end.

(** The loop of [choose_video_format] over the lines the user types; the
    result comes with the lines not read.  Without a line left, [input]
    raises [EOFError]. *)
Fixpoint prompt_choice (video_formats : list format) (inputs : list string)
  : res string * list string :=
  match inputs with
  | [] => (Raise (OtherError "EOFError"), [])
  | line :: rest =>
      match Int.parse line with
      | Some n =>
          let choice := n - 1 in
          if (0 <=? choice) && (choice <? Z.of_nat (List.length video_formats))
          then (do f <- Py.index video_formats choice;
                subscript (f_format_id f), rest)
          else prompt_choice video_formats rest
      | None => prompt_choice video_formats rest
      end
  end.

(** [choose_video_format(video_formats)] *)
Definition choose_video_format (video_formats : list format)
           (inputs : list string) : res string * list string :=
  match print_listing video_formats with
  | Raise e => (Raise e, inputs)
  | Ret _ => prompt_choice video_formats inputs
  end.

(** The script run as a program: the lines typed are its input. *)
Definition main (inputs : list string) : M unit :=
  match inputs with
  | [] => raise (OtherError "EOFError")
  | l1 :: inputs1 =>
      let url := Text.strip l1 in
      match inputs1 with
      | [] => raise (OtherError "EOFError")
      | l2 :: inputs2 =>
          let is_playlist := String.eqb (Text.lower (Text.strip l2)) "y" in
          if is_playlist then download_playlist url
          else
            run r <- get_formats url;
            match r with
            | None => raise (SystemExit 1)
            | Some (title, videos, audios) =>
                match videos, audios with
                | [], _ | _, [] => raise (SystemExit 1)
                | _, _ =>
                    match choose_video_format videos inputs2 with
                    | (Raise e, _) => raise e
                    | (Ret chosen_video_fmt, _) =>
                        match
                          (do a <- Py.index audios (-1);
                           subscript (f_format_id a))
                        with
                        | Raise e => raise e
                        | Ret best_audio_fmt =>
                            match title with
                            | None => raise TypeError   (* [for c in None] *)
                            | Some t =>
                                let safe_title_str := safe_filename t in
                                run _ <- download_and_merge
                                           url chosen_video_fmt best_audio_fmt
                                           (safe_title_str ++ ".mp4");
                                ret tt
                            end
                        end
                    end
                end
            end
      end
  end.

End Program.

End Cli.

(* ===================================================================== *)
(** * Part II: the vocabulary of the properties *)
(* ===================================================================== *)

(** ** Requests and URLs *)

(** A text contains [marker] whatever the case of its letters when a part
    of it is [marker] once put in lower case. *)
Definition contains_ci (marker url : string) : Prop :=
  exists pre mid post, url = pre ++ mid ++ post /\ Text.lower mid = marker.

(** The URL a request carries: the query parameter, or the ["url"] member of
    a JSON object sent as body when the query has none. *)
Definition carries_url (r : formats_request) (u : string) : Prop :=
  args_url r = Some u
  \/ ((args_url r = None \/ args_url r = Some "")
      /\ is_json r = true
      /\ exists m, get_json r = JObj m /\ Json.get "url" m = JStr u).

(** A request carries no URL when the query has none and the body, if it is
    JSON, is absent, empty, or an object without a ["url"] that counts. *)
Definition no_url_object_body (r : formats_request) : Prop :=
  (args_url r = None \/ args_url r = Some "")
  /\ (is_json r = false
      \/ Json.truthy (get_json r) = false
      \/ exists m, get_json r = JObj m /\ Json.truthy (Json.get "url" m) = false).

(** ** Events of the stream *)

(** The number of elements of [l] that pass [p]. *)
Definition count {A : Type} (p : A -> bool) (l : list A) : nat :=
  List.length (List.filter p l).

Definition is_finished (e : event) : bool :=
  match e with EvFinished => true | _ => false end.

(** The error event that reports the exit code [ret]. *)
Definition is_exit_error (ret : Z) (e : event) : bool :=
  match e with
  | EvError m => String.eqb m ("yt-dlp exited with code " ++ Text.of_Z ret)
  | _ => false
  end.

(** A terminal event closes the stream: the finished event, or an error
    event that is not the copy of an ["ERROR:"] line of the tool. *)
Definition is_terminal (e : event) : bool :=
  match e with
  | EvFinished => true
  | EvError m => negb (Text.startswith m "ERROR:")
  | _ => false
  end.

(** ** Texts and patterns *)

(** Every character of [s] is in the class [c]. *)
Fixpoint all (c : ascii -> bool) (s : string) : bool :=
  match s with
  | EmptyString => true
  | String a s' => c a && all c s'
  end.

(** The texts a pattern matches, and the groups it records. *)
Inductive matches : regex -> string -> Re.captures -> Re.captures -> Prop :=
| M_Lit l cs : matches (Lit l) l cs cs
| M_Rep c lo hi w cs :
    all c w = true -> (lo <= String.length w)%nat ->
    (forall h, hi = Some h -> (String.length w <= h)%nat) ->
    matches (Rep c lo hi) w cs cs
| M_Opt_some r w cs cs' : matches r w cs cs' -> matches (Opt r) w cs cs'
| M_Opt_none r cs : matches (Opt r) "" cs cs
| M_Seq r1 r2 w1 w2 cs c1 c2 :
    matches r1 w1 cs c1 -> matches r2 w2 c1 c2 ->
    matches (Seq r1 r2) (w1 ++ w2) cs c2
| M_Grp n r w cs cs' :
    matches r w cs cs' -> matches (Grp n r) w cs ((n, w) :: cs').

(** The values of the digits of [d]. *)
Definition digit_values (d : string) : list Z :=
  List.map Text.digit_val (list_ascii_of_string d).

(** What may follow a run of digits without being read with it. *)
Definition ends_digits (rest : string) : Prop :=
  match rest with
  | EmptyString => True
  | String c _ => Text.is_digit c = false /\ c <> "_"%char
  end.

(** The texts matched by [\d{1,3}(?:\.\d+)?]. *)
Definition percent_text (p : string) : Prop :=
  exists c d tail,
    p = String c d ++ tail /\ all Re.digit (String c d) = true
    /\ (tail = ""
        \/ exists c' f, tail = String "." (String c' f)
                        /\ all Re.digit (String c' f) = true).

(** The pattern of the [pct] group of [progress_re]. *)
Definition percent_re : regex :=
  Seq (Rep Re.digit 1 (Some 3%nat)) (Opt (Seq (Lit ".") (Re.plus Re.digit))).

(** ** Classification and order *)

(** A codec is null when the tool reports the text ["none"] for it; a codec
    field that is missing is not null (the codec is unknown). *)
Definition codec_null (c : option string) : Prop := c = Some "none".

Definition video_only (f : format) : Prop :=
  ~ codec_null (f_vcodec f) /\ codec_null (f_acodec f).

Definition audio_only (f : format) : Prop :=
  ~ codec_null (f_acodec f) /\ codec_null (f_vcodec f).

#[local] Instance codec_null_dec (c : option string)
  : Decision (codec_null c) := decide (c = Some "none").

#[local] Instance video_only_dec (f : format) : Decision (video_only f) :=
  and_dec (not_dec (codec_null_dec (f_vcodec f))) (codec_null_dec (f_acodec f)).

#[local] Instance audio_only_dec (f : format) : Decision (audio_only f) :=
  and_dec (not_dec (codec_null_dec (f_acodec f))) (codec_null_dec (f_vcodec f)).

(** [it] is the dictionary built for [f]. *)
Definition item_of (f : format) (it : item) : Prop := make_item f = Ret it.









(** ** Sample data *)

Definition sample_video (id : string) (h : Z) : format :=
  {| f_format_id := Some id; f_vcodec := Some "avc1.640028";
     f_acodec := Some "none"; f_height := Some (inject_Z h);
     f_fps := Some 30%Q; f_ext := Some "mp4"; f_abr := None;
     f_filesize := Some 2048%Q; f_filesize_approx := None |}.

Definition sample_audio (id : string) (rate : Z) : format :=
  {| f_format_id := Some id; f_vcodec := Some "none";
     f_acodec := Some "mp4a.40.2"; f_height := None; f_fps := None;
     f_ext := Some "m4a"; f_abr := Some (inject_Z rate);
     f_filesize := None; f_filesize_approx := None |}.

Definition sample_muxed : format :=
  {| f_format_id := Some "18"; f_vcodec := Some "avc1.42001E";
     f_acodec := Some "mp4a.40.2"; f_height := Some 360%Q;
     f_fps := Some 30%Q; f_ext := Some "mp4"; f_abr := Some 96%Q;
     f_filesize := None; f_filesize_approx := None |}.

(** The tool's list, worst quality first, as the tool reports it. *)
Definition sample_formats : list format :=
  [sample_audio "139" 48; sample_audio "140" 128; sample_muxed;
   sample_video "160" 144; sample_video "137" 1080].




Definition sample_cli_run (cmd : list string) (fs : Cli.files)
  : Cli.run_outcome * Cli.files := (Cli.Completed "{...}" "" 0, fs).


Definition sample_item (f : format) (hr : option string) : item :=
  {| format_id := f_format_id f; height := f_height f; fps := f_fps f;
     ext := f_ext f; abr := f_abr f; filesize := f_filesize f;
     filesize_hr := hr |}.

Definition sample_world : Pathlib.world :=
  {| Pathlib.cwd := ["srv"; "app"];
     Pathlib.home_of := fun u => if String.eqb u "" then Some ["home"; "me"]
                                  else None;
     Pathlib.dirs := {[ []; ["srv"]; ["srv"; "app"]; ["home"]; ["home"; "me"];
                        ["mnt"]; ["mnt"; "disk"] ]};
     Pathlib.files := {[ ["srv"; "app"; "notes.txt"] ]};
     Pathlib.links := {[ ["srv"; "media"] := ["mnt"; "disk"] ]};
     Pathlib.refuses := fun a => match a with
                                 | "proc" :: _ => Some (OtherError "PermissionError")
                                 | _ => None
                                 end |}.

Definition sample_progress_request : progress_request :=
  {| p_url := Some "https://youtu.be/abc"; p_quality := Some " 137 ";
     p_download_path := None; p_is_playlist := None |}.

(** ** Further notions *)

(** The first event of every stream. *)
Definition is_starting (e : event) : bool :=
  match e with EvStarting => true | _ => false end.

(** The events that can close a stream. *)
Definition closes_stream (e : event) : bool :=
  match e with EvFinished | EvError _ => true | _ => false end.

(** The text an event carries in its ["message"]. *)
Definition event_message (e : event) : option string :=
  match e with
  | EvDestination m | EvAlready m | EvMerging m | EvPostprocess m
  | EvInfo m | EvError m => Some m
  | _ => None
  end.

(** The characters [safe_filename] lets through. *)
Definition safe_char (c : ascii) : Prop :=
  Text.is_alnum c = true \/ c = " "%char \/ c = "_"%char \/ c = "-"%char.




(** A part of a path as [pathlib] keeps it: not empty, not ["."], without
    separator. *)
Definition not_slash (c : ascii) : bool := negb (Ascii.eqb c "/").

Definition part_ok (c : string) : bool :=
  Pathlib.keep_part c && all not_slash c.

(** A directory in normal form: parts that are not [".."] either. *)
Definition tidy_name (c : string) : bool :=
  part_ok c && negb (String.eqb c "..").

Definition tidy_path (t : Pathlib.path) : bool := forallb tidy_name t.

(** A world in order: the current directory, the home directories and the
    locations the symbolic links lead to are in normal form, and the current
    directory exists with its parents. *)
Definition tidy_world (w : Pathlib.world) : Prop :=
  tidy_path (Pathlib.cwd w) = true
  /\ (forall u h, Pathlib.home_of w u = Some h -> tidy_path h = true)
  /\ (forall a, a `prefix_of` Pathlib.cwd w -> a ∈ Pathlib.dirs w)
  /\ (forall a t, Pathlib.links w !! a = Some t -> tidy_path t = true).








(** The world [w'] is [w] with the directories from the root to [t] added,
    and nothing else changed. *)
Definition created_in (w w' : Pathlib.world) (t : Pathlib.path) : Prop :=
  (forall a, a ∈ Pathlib.dirs w' <-> a ∈ Pathlib.dirs w \/ a `prefix_of` t)
  /\ Pathlib.cwd w' = Pathlib.cwd w
  /\ Pathlib.home_of w' = Pathlib.home_of w
  /\ Pathlib.files w' = Pathlib.files w
  /\ Pathlib.links w' = Pathlib.links w
  /\ Pathlib.refuses w' = Pathlib.refuses w.

(** The command [cmd], run on the files [fs], completes with exit code 0 and
    leaves the files [fs']. *)
Definition succeeds
           (run : list string -> Cli.files -> Cli.run_outcome * Cli.files)
           (cmd : list string) (fs fs' : Cli.files) : Prop :=
  exists out err, run cmd fs = (Cli.Completed out err 0, fs').

(** The files left by running the commands [cmds] one after the other. *)
Definition files_after
           (run : list string -> Cli.files -> Cli.run_outcome * Cli.files)
           (cmds : list (list string)) (fs : Cli.files) : Cli.files :=
  fold_left (fun fs cmd => snd (run cmd fs)) cmds fs.

(** An entry with a ["url"] and a title that is not [null]: one for which
    the loop builds a command. *)
Definition downloadable (e : entry) : Prop :=
  match e with
  | Entry (Some _) title => title <> Null
  | _ => False
  end.

(** The title the loop uses for the entry number [i]. *)
Definition title_of (i : Z) (title : field string) : string :=
  match title with Val t => t | _ => "video_" ++ Text.of_Z i end.

(** The download commands of the entries of a playlist, numbered from [i]:
    each asks for the default format, names the output after the title, and
    ends with the ["url"] of the entry. *)
Fixpoint planned_cmds (YT_DLP : string) (i : Z) (entries : list entry)
  : list (list string) :=
  match entries with
  | [] => []
  | Entry (Some vid_id) title :: rest =>
      [YT_DLP; "-f"; default_playlist_format;
       "-o"; Cli.safe_filename (title_of i title) ++ ".%(ext)s"; vid_id]
      :: planned_cmds YT_DLP (i + 1) rest
  | _ :: rest => planned_cmds YT_DLP (i + 1) rest
  end.

(** The name [f] is absent, or a file the process may remove. *)
Definition removable (fs : Cli.files) (f : string) : Prop :=
  fs !! f = None \/ fs !! f = Some (Cli.RegularFile true).

(** The name [f] is one [os.remove] refuses: a directory, or a file the
    process may not remove. *)
Definition blocked (fs : Cli.files) (f : string) : Prop :=
  fs !! f = Some Cli.Directory \/ fs !! f = Some (Cli.RegularFile false).

(** The name [f] is gone as far as [os.path.exists] tells: it is absent, or
    a link that leads nowhere. *)
Definition gone (fs : Cli.files) (f : string) : Prop :=
  fs !! f = None \/ fs !! f = Some Cli.BrokenLink.



(** The position a typed line chooses in a list of [len] formats, if it is
    a number from 1 to [len]. *)
Definition choice_of (len : nat) (line : string) : option nat :=
  match Int.parse line with
  | Some n => if (1 <=? n) && (n <=? Z.of_nat len)
              then Some (Z.to_nat (n - 1)) else None
  | None => None
  end.

Definition sample_entries : list entry :=
  [Entry (Some "https://youtu.be/a") (Val "One / two");
   Entry (Some "https://youtu.be/b") Missing].

(** The same request with another quality selector. *)
Definition with_quality (r : progress_request) (q : option string)
  : progress_request :=
  {| p_url := p_url r; p_quality := q;
     p_download_path := p_download_path r;
     p_is_playlist := p_is_playlist r |}.

(* ===================================================================== *)
(** * Part III: properties *)
(* ===================================================================== *)

(** ** Text *)

Lemma append_cons (c : ascii) (s t : string) :
  String c s ++ t = String c (s ++ t).
Proof. reflexivity. Qed.

Lemma append_nil (t : string) : "" ++ t = t.
Proof. reflexivity. Qed.

Lemma all_cons (c : ascii -> bool) (a : ascii) (s : string) :
  all c (String a s) = c a && all c s.
Proof. reflexivity. Qed.

Lemma all_app (c : ascii -> bool) (a b : string) :
  all c (a ++ b) = all c a && all c b.
Proof.
  induction a as [|x a IH]; [reflexivity|].
  rewrite append_cons. cbn [all]. now rewrite IH, andb_assoc.
Qed.

Lemma all_impl (c d : ascii -> bool) (s : string) :
  (forall a, c a = true -> d a = true) -> all c s = true -> all d s = true.
Proof.
  intros Hcd. induction s as [|a s IH]; [reflexivity|]. cbn [all].
  rewrite !andb_true_iff. intros [Ha Hs]. auto.
Qed.

Lemma prefix_app (p s : string) : String.prefix p (p ++ s) = true.
Proof.
  induction p as [|c p IH].
  - rewrite append_nil. now destruct s.
  - rewrite append_cons. cbn [String.prefix].
    destruct (ascii_dec c c); [exact IH | congruence].
Qed.

Lemma contains_prefix (sub s : string) :
  String.prefix sub s = true -> Text.contains sub s = true.
Proof. intros H. destruct s; cbn [Text.contains]; now rewrite H. Qed.

Lemma contains_app (sub pre post : string) :
  Text.contains sub (pre ++ sub ++ post) = true.
Proof.
  induction pre as [|c pre IH].
  - change ("" ++ sub ++ post) with (sub ++ post).
    apply contains_prefix, prefix_app.
  - rewrite append_cons. cbn [Text.contains]. rewrite IH. apply orb_true_r.
Qed.

Lemma lower_app (a b : string) :
  Text.lower (a ++ b) = Text.lower a ++ Text.lower b.
Proof.
  induction a as [|c a IH]; [reflexivity|].
  rewrite append_cons. cbn [Text.lower]. now rewrite append_cons, IH.
Qed.

Lemma contains_ci_lower (marker url : string) :
  contains_ci marker url -> Text.contains marker (Text.lower url) = true.
Proof.
  intros (pre & mid & post & -> & <-).
  rewrite !lower_app. apply contains_app.
Qed.

Lemma playlist_marker_detected (url : string) :
  contains_ci "list=" url \/ contains_ci "/playlist" url ->
  is_probably_playlist url = true.
Proof.
  unfold is_probably_playlist.
  intros [H | H]; apply contains_ci_lower in H; rewrite H;
    [reflexivity | apply orb_true_r].
Qed.

Lemma contains_ci_nonempty (marker url : string) :
  marker <> "" -> contains_ci marker url -> Text.nonempty url = true.
Proof.
  intros Hm (pre & mid & post & -> & <-).
  destruct pre; [|reflexivity]. destruct mid; [|reflexivity].
  now contradiction Hm.
Qed.

(** ** The format-listing endpoint: requests without a usable URL *)

Section ApiProperties.

Variable YT_DLP : string.
Variable subprocess_run : list string -> option (string * string * Z).
Variable json_loads : string -> string + option info.

Let api := get_formats_api YT_DLP subprocess_run json_loads.

Lemma get_json_member_nonempty (m : list (string * json)) (u : string) :
  Json.get "url" m = JStr u -> Text.nonempty u = true ->
  Json.truthy (JObj m) = true.
Proof. destruct m; [discriminate | reflexivity]. Qed.

Lemma api_on_url (r : formats_request) (u : string) :
  carries_url r u -> Text.nonempty u = true ->
  api r = if is_probably_playlist u
          then ([], Ret (jsonify (playlist_body "Playlist")))
          else list_formats YT_DLP subprocess_run json_loads u.
Proof.
  intros H Hu. unfold api, get_formats_api.
  destruct H as [H | (Ha & Hj & m & Hm & Hg)].
  - rewrite H. cbn [Json.truthy]. rewrite Hu. cbn. now rewrite Hu.
  - assert (Json.truthy
              (match args_url r with Some s => JStr s | None => JNull end)
            = false) as -> by (destruct Ha as [-> | ->]; reflexivity).
    rewrite Hj, Hm. cbn [negb andb].
    rewrite (get_json_member_nonempty m u Hg Hu).
    cbn [Json.dict_get]. rewrite Hg. cbn [Json.truthy]. now rewrite Hu.
Qed.

Lemma api_missing_url_object_body (r : formats_request) :
  no_url_object_body r ->
  api r = ([], Ret (jsonify_code (ErrorBody "Missing url") 400)).
Proof.
  intros [Ha Hb]. unfold api, get_formats_api.
  assert (Json.truthy
            (match args_url r with Some s => JStr s | None => JNull end)
          = false) as E by (destruct Ha as [-> | ->]; reflexivity).
  rewrite E. cbn [negb andb].
  destruct Hb as [Hj | [Hf | (m & Hm & Hg)]].
  - rewrite Hj. now rewrite E.
  - destruct (is_json r); [|now rewrite E].
    rewrite Hf. reflexivity.
  - destruct (is_json r); [|now rewrite E].
    rewrite Hm. destruct m as [|kv m']; [reflexivity|].
    cbn [Json.truthy Json.dict_get]. now rewrite Hg.
Qed.

End ApiProperties.

(** C6.  For every URL that contains a playlist marker (["list="] or
    ["/playlist"], whatever the case of the letters), the format-listing
    endpoint answers with [is_playlist] true and two empty lists, and runs no
    command, whatever the tool and the decoder would do. *)
Theorem playlist_url_short_circuits
  (YT_DLP : string)
  (subprocess_run : list string -> option (string * string * Z))
  (json_loads : string -> string + option info)
  (r : formats_request) (u : string) :
  carries_url r u ->
  contains_ci "list=" u \/ contains_ci "/playlist" u ->
  get_formats_api YT_DLP subprocess_run json_loads r
  = ([], Ret {| status := 200;
                payload := FormatsBody (Some "Playlist") true [] [] |}).
Proof.
  intros Hc Hm.
  assert (Text.nonempty u = true) as Hu.
  { destruct Hm as [H | H]; eapply contains_ci_nonempty; eauto; discriminate. }
  rewrite (api_on_url _ _ _ r u Hc Hu).
  now rewrite (playlist_marker_detected u Hm).
Qed.

Lemma playlist_url_short_circuits_witness :
  get_formats_api "yt-dlp" (fun _ => Some ("{}", "", 0)) (fun _ => inr None)
    {| args_url := Some "https://youtube.com/watch?v=abc&LIST=PL1";
       is_json := false; get_json := JNull |}
  = ([], Ret {| status := 200;
                payload := FormatsBody (Some "Playlist") true [] [] |}).
Proof.
  apply (playlist_url_short_circuits _ _ _ _
           "https://youtube.com/watch?v=abc&LIST=PL1").
  - left. reflexivity.
  - left. exists "https://youtube.com/watch?v=abc&", "LIST=", "PL1".
    split; reflexivity.
Defined.

(** C7.  A request without a URL whose JSON body is not an object: the view
    calls [.get] on the body, the [AttributeError] is not handled, and the
    answer is a server error, not the 400 answer.  No command is run. *)
Theorem missing_url_non_object_body
  (YT_DLP : string)
  (subprocess_run : list string -> option (string * string * Z))
  (json_loads : string -> string + option info) :
  get_formats_api YT_DLP subprocess_run json_loads
    {| args_url := None; is_json := true; get_json := JArr [JNum 1] |}
  = ([], Raise AttributeError).
Proof. reflexivity. Qed.

(** ** The download view: quality selector *)

Lemma contains_plus_iff (q : string) :
  Text.contains "+" q = true <-> In "+"%char (list_ascii_of_string q).
Proof.
  induction q as [|c q IH]; [split; [discriminate | intros []]|].
  cbn [Text.contains list_ascii_of_string In String.prefix].
  rewrite orb_true_iff, IH.
  destruct (ascii_dec "+" c) as [E | N].
  - split; intros _; [now left | left; now destruct q].
  - split; intros [H | H]; try discriminate; try congruence; now right.
Qed.

(** Without a selector no command is built: the view answers 400. *)
Lemma progress_missing_quality
      (YT_DLP FFMPEG : string) (unquote : string -> string)
      (r : progress_request) (w w' : Pathlib.world) (dest : string) :
  safe_path (req_download_path unquote r) w = (Ret dest, w') ->
  playlist_mode r = false ->
  Text.nonempty (req_url r) = true ->
  Text.nonempty (req_quality r) = false ->
  progress YT_DLP FFMPEG unquote r w
  = (Ret (Answer {| status := 400;
                    payload := ErrorBody
                      "Missing quality (vfmt or vfmt+afmt) for single video" |}),
     w').
Proof.
  intros Hp Hm Hu Hq. unfold progress. rewrite Hp. cbn [bind].
  now rewrite Hu, Hm, Hq.
Qed.

(** For a playlist the selector of the caller is not used: every item gets
    the default format. *)
Lemma progress_playlist_format
      (YT_DLP FFMPEG : string) (unquote : string -> string)
      (r : progress_request) (w w' : Pathlib.world) (dest : string) :
  safe_path (req_download_path unquote r) w = (Ret dest, w') ->
  playlist_mode r = true ->
  Text.nonempty (req_url r) = true ->
  progress YT_DLP FFMPEG unquote r w
  = (Ret (EventStream
            ([YT_DLP; "--newline"; "-f"; default_playlist_format;
              "--yes-playlist"]
             ++ ffmpeg_args FFMPEG
             ++ ["-o";
                 path_join dest ["%(playlist_title,channel)s";
                                 "%(title)s.%(ext)s"];
                 req_url r])%list),
     w').
Proof.
  intros Hp Hm Hu. unfold progress. rewrite Hp. cbn [bind].
  now rewrite Hu, Hm.
Qed.

(** C5.  For every download request that is not for a playlist, once the
    destination is resolved and the URL and the selector are not empty, the
    command built for the tool has, after [-f], the selector followed by
    ["+ba"] when the selector has no ['+'], and the selector itself when it
    has one. *)
Theorem quality_selector_resolution
  (YT_DLP FFMPEG : string) (unquote : string -> string)
  (r : progress_request) (w w' : Pathlib.world) (dest : string) :
  safe_path (req_download_path unquote r) w = (Ret dest, w') ->
  playlist_mode r = false ->
  Text.nonempty (req_url r) = true ->
  Text.nonempty (req_quality r) = true ->
  exists selector,
    progress YT_DLP FFMPEG unquote r w
    = (Ret (EventStream
              ([YT_DLP; "--newline"; "-f"; selector; "--no-playlist"]
               ++ ffmpeg_args FFMPEG
               ++ ["-o"; path_join dest ["%(title)s.%(ext)s"]; req_url r])%list),
       w')
    /\ (~ In "+"%char (list_ascii_of_string (req_quality r)) ->
        selector = req_quality r ++ "+ba")
    /\ (In "+"%char (list_ascii_of_string (req_quality r)) ->
        selector = req_quality r).
Proof.
  intros Hp Hm Hu Hq.
  exists (if negb (Text.contains "+" (req_quality r))
          then req_quality r ++ "+ba" else req_quality r).
  split; [|split].
  - unfold progress. rewrite Hp. cbn [bind]. now rewrite Hu, Hm, Hq.
  - intros H. destruct (Text.contains "+" (req_quality r)) eqn:E; [|reflexivity].
    now apply contains_plus_iff in E.
  - intros H. apply contains_plus_iff in H. now rewrite H.
Qed.

Lemma quality_selector_resolution_witness :
  exists selector,
    progress "yt-dlp" "ffmpeg" (fun s => s) sample_progress_request sample_world
    = (Ret (EventStream
              ["yt-dlp"; "--newline"; "-f"; selector; "--no-playlist";
               "--ffmpeg-location"; "ffmpeg"; "-o";
               "/srv/app/%(title)s.%(ext)s"; "https://youtu.be/abc"]),
       sample_world)
    /\ (~ In "+"%char (list_ascii_of_string "137") -> selector = "137+ba")
    /\ (In "+"%char (list_ascii_of_string "137") -> selector = "137").
Proof.
  exact (quality_selector_resolution
           "yt-dlp" "ffmpeg" (fun s => s) sample_progress_request
           sample_world sample_world "/srv/app"
           eq_refl eq_refl eq_refl eq_refl).
Defined.

(** ** The download view: destination directory *)

Lemma elem_of_prefixes (t a : Pathlib.path) :
  a ∈ Pathlib.prefixes t <-> a `prefix_of` t.
Proof.
  revert a. induction t as [|c t IH]; intros a; cbn [Pathlib.prefixes].
  - rewrite list_elem_of_singleton. split.
    + intros ->. reflexivity.
    + intros H. now apply prefix_nil_inv in H.
  - rewrite elem_of_cons, list_elem_of_fmap. split.
    + intros [-> | (b & -> & Hb)]; [apply prefix_nil|].
      apply prefix_cons, IH, Hb.
    + destruct a as [|d a]; [now left|]. intros H. right.
      exists a. apply prefix_cons_inv_1 in H as E. subst d.
      apply prefix_cons_inv_2 in H. split; [reflexivity | now apply IH].
Qed.

Lemma render_absolute (t : Pathlib.path) :
  Text.startswith (Pathlib.render t) "/" = true.
Proof. unfold Pathlib.render. apply prefix_app. Qed.

Lemma split_on_plain (x : string) :
  all not_slash x = true -> Text.split_on "/" x = [x].
Proof.
  induction x as [|c x IH]; [reflexivity|]. rewrite all_cons.
  intros H. apply andb_true_iff in H as [Hc Hx]. cbn [Text.split_on].
  unfold not_slash in Hc. apply negb_true_iff in Hc. rewrite Hc, (IH Hx).
  reflexivity.
Qed.

Lemma split_on_app (x rest : string) :
  all not_slash x = true ->
  Text.split_on "/" (x ++ "/" ++ rest) = x :: Text.split_on "/" rest.
Proof.
  induction x as [|c x IH].
  - intros _. reflexivity.
  - rewrite all_cons. intros H. apply andb_true_iff in H as [Hc Hx].
    rewrite append_cons. cbn [Text.split_on].
    unfold not_slash in Hc. apply negb_true_iff in Hc. rewrite Hc, (IH Hx).
    reflexivity.
Qed.

Lemma tidy_name_parts (c : string) :
  tidy_name c = true ->
  Pathlib.keep_part c = true /\ all not_slash c = true
  /\ String.eqb c ".." = false.
Proof.
  unfold tidy_name, part_ok. rewrite !andb_true_iff, negb_true_iff. tauto.
Qed.

Lemma split_on_join (t : Pathlib.path) :
  tidy_path t = true -> t <> [] ->
  Text.split_on "/" (Text.join "/" t) = t.
Proof.
  induction t as [|x t IH]; [congruence|]. intros H _.
  cbn [tidy_path forallb] in H. apply andb_true_iff in H as [Hx Ht].
  apply tidy_name_parts in Hx as (_ & Hx & _).
  destruct t as [|y t]; [now apply split_on_plain|].
  change (Text.join "/" (x :: y :: t)) with (x ++ "/" ++ Text.join "/" (y :: t)).
  rewrite (split_on_app x _ Hx), IH; [reflexivity | exact Ht | discriminate].
Qed.

Lemma filter_keep_tidy (t : Pathlib.path) :
  tidy_path t = true -> List.filter Pathlib.keep_part t = t.
Proof.
  induction t as [|x t IH]; [reflexivity|]. cbn [tidy_path forallb].
  intros H. apply andb_true_iff in H as [Hx Ht].
  apply tidy_name_parts in Hx as (Hx & _). cbn [List.filter].
  now rewrite Hx, (IH Ht).
Qed.

Lemma parse_render (t : Pathlib.path) :
  tidy_path t = true ->
  Pathlib.parse (Pathlib.render t)
  = {| Pathlib.anchored := true; Pathlib.parts := t |}.
Proof.
  intros Ht. unfold Pathlib.parse. rewrite render_absolute. f_equal.
  unfold Pathlib.render. change ("/" ++ ?s) with (String "/" s).
  cbn [Text.split_on Ascii.eqb Bool.eqb]. cbn [List.filter].
  change (Pathlib.keep_part "") with false. cbv iota.
  destruct t as [|x t]; [reflexivity|].
  rewrite (split_on_join (x :: t) Ht) by discriminate.
  now apply filter_keep_tidy.
Qed.

Lemma tidy_removelast (acc : Pathlib.path) :
  tidy_path acc = true -> tidy_path (removelast acc) = true.
Proof.
  induction acc as [|x acc IH]; [reflexivity|]. cbn [tidy_path forallb].
  intros H. apply andb_true_iff in H as [Hx Ha].
  destruct acc as [|y acc]; [reflexivity|].
  change (removelast (x :: y :: acc)) with (x :: removelast (y :: acc)).
  change (tidy_name x && tidy_path (removelast (y :: acc)) = true).
  rewrite Hx. exact (IH Ha).
Qed.

Lemma split_on_parts (s : string) :
  forallb (all not_slash) (Text.split_on "/" s) = true.
Proof.
  induction s as [|c s IH]; [reflexivity|]. cbn [Text.split_on].
  destruct (Ascii.eqb c "/") eqn:E; [exact IH|].
  destruct (Text.split_on "/" s) as [|x l]; cbn [forallb all] in *.
  - unfold not_slash. now rewrite E.
  - unfold not_slash at 1. now rewrite E.
Qed.

Lemma parse_parts_ok (p : string) :
  forallb part_ok (Pathlib.parts (Pathlib.parse p)) = true.
Proof.
  unfold Pathlib.parse. cbn [Pathlib.parts].
  pose proof (split_on_parts p) as H.
  induction (Text.split_on "/" p) as [|x l IH]; [reflexivity|].
  cbn [forallb] in H. apply andb_true_iff in H as [Hx Hl].
  cbn [List.filter]. destruct (Pathlib.keep_part x) eqn:E; [|now apply IH].
  cbn [forallb]. unfold part_ok at 1. now rewrite E, Hx, (IH Hl).
Qed.

Lemma tidy_parts_ok (t : Pathlib.path) :
  tidy_path t = true -> forallb part_ok t = true.
Proof.
  induction t as [|x t IH]; [reflexivity|]. cbn [tidy_path forallb].
  intros H. apply andb_true_iff in H as [Hx Ht].
  unfold tidy_name in Hx. apply andb_true_iff in Hx as [Hx _].
  now rewrite Hx, (IH Ht).
Qed.



(** *** Creating the directories *)

Lemma mkdir_each_ok (t : Pathlib.path) (l : list Pathlib.path)
      (w w' : Pathlib.world) :
  Pathlib.mkdir_each t l w = (Ret tt, w') ->
  (forall a, a ∈ Pathlib.dirs w' <-> a ∈ Pathlib.dirs w \/ a ∈ l)
  /\ Pathlib.cwd w' = Pathlib.cwd w
  /\ Pathlib.home_of w' = Pathlib.home_of w
  /\ Pathlib.files w' = Pathlib.files w
  /\ Pathlib.links w' = Pathlib.links w
  /\ Pathlib.refuses w' = Pathlib.refuses w.
Proof.
  revert w. induction l as [|x l IH]; intros w; cbn [Pathlib.mkdir_each].
  - intros [= <-]. repeat split; auto.
    intros [H | H]; [exact H | now apply not_elem_of_nil in H].
  - destruct (bool_decide (x ∈ Pathlib.dirs w)) eqn:Ex.
    + apply bool_decide_eq_true in Ex. intros H.
      destruct (IH _ H) as (Hd & Hrest). split; [|exact Hrest].
      intros a. rewrite Hd, elem_of_cons. split; [tauto|].
      intros [Ha | [-> | Ha]]; auto.
    + destruct (bool_decide (x ∈ Pathlib.files w)); [discriminate|].
      destruct (Pathlib.refuses w x); [discriminate|]. intros H.
      destruct (IH _ H) as (Hd & Hc & Hh & Hf & Hl & Hr).
      cbn [Pathlib.add_dir Pathlib.cwd Pathlib.home_of Pathlib.dirs
           Pathlib.files Pathlib.links Pathlib.refuses] in *.
      repeat split; auto; rewrite Hd, elem_of_union, elem_of_singleton,
        elem_of_cons; tauto.
Qed.

Lemma mkdir_each_present (t : Pathlib.path) (l : list Pathlib.path)
      (w : Pathlib.world) :
  (forall a, a ∈ l -> a ∈ Pathlib.dirs w) ->
  Pathlib.mkdir_each t l w = (Ret tt, w).
Proof.
  induction l as [|x l IH]; intros H; cbn [Pathlib.mkdir_each]; [reflexivity|].
  rewrite bool_decide_eq_true_2 by (apply H; now left).
  apply IH. intros a Ha. apply H. now right.
Qed.


Lemma mkdir_parents_ok (t : Pathlib.path) (w w' : Pathlib.world) :
  Pathlib.mkdir_parents t w = (Ret tt, w') -> created_in w w' t.
Proof.
  intros H. apply mkdir_each_ok in H as (Hd & Hrest). split; [|exact Hrest].
  intros a. now rewrite Hd, elem_of_prefixes.
Qed.


(** *** Resolving *)

Lemma enter_name (w : Pathlib.world) (acc : Pathlib.path) (c : string) :
  tidy_name c = true ->
  (acc ++ [c])%list ∈ Pathlib.dirs w
  \/ (Pathlib.has_nul c = false /\ Pathlib.links w !! (acc ++ [c])%list = None) ->
  Pathlib.enter w acc c = Ret (acc ++ [c])%list.
Proof.
  intros Hc H. apply tidy_name_parts in Hc as (_ & _ & Hc).
  unfold Pathlib.enter. rewrite Hc. cbv zeta.
  destruct (bool_decide_reflect ((acc ++ [c])%list ∈ Pathlib.dirs w));
    [reflexivity|].
  destruct H as [H | [Hn Hl]]; [contradiction|]. now rewrite Hn, Hl.
Qed.

Lemma walk_names (w : Pathlib.world) (l : list string) (acc : Pathlib.path) :
  tidy_path l = true ->
  (forall a, a `prefix_of` (acc ++ l)%list ->
             (List.length acc < List.length a)%nat ->
             a ∈ Pathlib.dirs w
             \/ (Pathlib.has_nul (List.last a "") = false
                 /\ Pathlib.links w !! a = None)) ->
  Pathlib.walk w l acc = Ret (acc ++ l)%list.
Proof.
  revert acc. induction l as [|c l IH]; intros acc Ht H.
  - now rewrite List.app_nil_r.
  - cbn [tidy_path forallb] in Ht. apply andb_true_iff in Ht as [Hc Ht].
    cbn [Pathlib.walk]. rewrite (enter_name w acc c Hc).
    + cbn [bind]. rewrite (IH _ Ht); [now rewrite <- List.app_assoc|].
      intros a Ha Hlen. apply H.
      * now rewrite <- List.app_assoc in Ha.
      * rewrite List.length_app in Hlen. cbn in Hlen. lia.
    + specialize (H (acc ++ [c])%list).
      rewrite List.last_last in H. apply H.
      * exists l. now rewrite <- List.app_assoc.
      * rewrite List.length_app. cbn. lia.
Qed.

(** A directory in normal form that exists with all its parents resolves to
    itself. *)
Lemma walk_existing (w : Pathlib.world) (t : Pathlib.path) :
  tidy_path t = true ->
  (forall a, a `prefix_of` t -> a ∈ Pathlib.dirs w) ->
  Pathlib.walk w t [] = Ret t.
Proof.
  intros Ht H. apply (walk_names w t [] Ht). intros a Ha _. left. now apply H.
Qed.

Lemma enter_tidy (w : Pathlib.world) (acc t : Pathlib.path) (c : string) :
  (forall a x, Pathlib.links w !! a = Some x -> tidy_path x = true) ->
  part_ok c = true -> tidy_path acc = true ->
  Pathlib.enter w acc c = Ret t -> tidy_path t = true.
Proof.
  intros Hl Hc Ha. unfold Pathlib.enter.
  destruct (String.eqb c "..") eqn:E;
    [intros [= <-]; now apply tidy_removelast|].
  assert (Hnew : tidy_path (acc ++ [c])%list = true).
  { unfold tidy_path in *. rewrite forallb_app, Ha. cbn [forallb].
    unfold tidy_name. now rewrite Hc, E. }
  cbv zeta. destruct (bool_decide _); [now intros [= <-]|].
  destruct (Pathlib.has_nul c); [discriminate|].
  destruct (Pathlib.links w !! (acc ++ [c])%list) as [x|] eqn:Ex;
    intros [= <-]; [now apply (Hl _ _ Ex) | exact Hnew].
Qed.

Lemma walk_tidy (w : Pathlib.world) (l : list string) (acc t : Pathlib.path) :
  (forall a x, Pathlib.links w !! a = Some x -> tidy_path x = true) ->
  forallb part_ok l = true -> tidy_path acc = true ->
  Pathlib.walk w l acc = Ret t -> tidy_path t = true.
Proof.
  intros Hl. revert acc. induction l as [|c l IH]; intros acc Hp Ha;
    cbn [Pathlib.walk]; [now intros [= <-]|].
  cbn [forallb] in Hp. apply andb_true_iff in Hp as [Hc Hp].
  destruct (Pathlib.enter w acc c) as [acc'|x] eqn:E; [|discriminate].
  cbn [bind]. apply IH; [exact Hp|]. exact (enter_tidy w acc acc' c Hl Hc Ha E).
Qed.

Lemma expanduser_parts_ok (w : Pathlib.world) (p : string)
      (e : Pathlib.pure_path) :
  (forall u h, Pathlib.home_of w u = Some h -> tidy_path h = true) ->
  Pathlib.expanduser w (Pathlib.parse p) = Ret e ->
  forallb part_ok (Pathlib.parts e) = true.
Proof.
  intros Hh He. pose proof (parse_parts_ok p) as Hp.
  unfold Pathlib.expanduser in He.
  destruct (Pathlib.anchored (Pathlib.parse p)); [now injection He as <-|].
  destruct (Pathlib.parts (Pathlib.parse p)) as [|c rest] eqn:Ep;
    [now injection He as <-; rewrite Ep|].
  cbn [forallb] in Hp. apply andb_true_iff in Hp as [Hp1 Hp2].
  assert (Hsame : forallb part_ok (c :: rest) = true)
    by (cbn [forallb]; now rewrite Hp1, Hp2).
  destruct c as [|a user]; [injection He as <-; now rewrite Ep|].
  destruct a as [[] [] [] [] [] [] [] []];
    try (injection He as <-; rewrite Ep; exact Hsame).
  destruct (Pathlib.has_nul user); [discriminate|].
  destruct (Pathlib.home_of w user) as [h|] eqn:Eh; [|discriminate].
  injection He as <-. cbn [Pathlib.parts].
  rewrite (filter_keep_tidy h (Hh user h Eh)), forallb_app.
  now rewrite (tidy_parts_ok h (Hh user h Eh)), Hp2.
Qed.

(** *** [safe_path] *)

(** What a call that returns has done. *)
Lemma safe_path_returns (p dest : string) (w w' : Pathlib.world) :
  Text.nonempty p = true ->
  safe_path p w = (Ret dest, w') ->
  exists e t,
    Pathlib.expanduser w (Pathlib.parse p) = Ret e
    /\ Pathlib.resolve w e = Ret t
    /\ dest = Pathlib.render t
    /\ created_in w w' t.
Proof.
  intros Hn. unfold safe_path. rewrite Hn. cbn [negb].
  destruct (Pathlib.expanduser w (Pathlib.parse p)) as [e|x]; [|discriminate].
  cbn [bind]. destruct (Pathlib.resolve w e) as [t|x] eqn:Er; [|discriminate].
  destruct (Pathlib.mkdir_parents t w) as [[[]|x] w1] eqn:Em; [|discriminate].
  intros [= <- <-]. exists e, t.
  split; [reflexivity|]. split; [exact Er|]. split; [reflexivity|].
  now apply (mkdir_parents_ok t w w1).
Qed.















(** ** The interactive download: temporary files *)

Lemma cleanup_one_removable (f : string) (fs : Cli.files) :
  removable fs f -> Cli.cleanup_one f fs = (Ret tt, delete f fs).
Proof.
  unfold Cli.cleanup_one, Cli.bindM, Cli.exists_, Cli.remove, Cli.ret.
  intros [H | H]; rewrite H; [|now rewrite H].
  now rewrite (delete_id fs f H).
Qed.

Lemma cleanup_one_link (f : string) (fs : Cli.files) :
  fs !! f = Some Cli.BrokenLink -> Cli.cleanup_one f fs = (Ret tt, fs).
Proof.
  unfold Cli.cleanup_one, Cli.bindM, Cli.exists_, Cli.remove, Cli.ret.
  now intros ->.
Qed.

Lemma cleanup_one_blocked (f : string) (fs : Cli.files) :
  blocked fs f -> exists e, Cli.cleanup_one f fs = (Raise e, fs).
Proof.
  unfold blocked, Cli.cleanup_one, Cli.bindM, Cli.exists_, Cli.remove, Cli.ret.
  intros [H | H]; rewrite H; rewrite H; eauto.
Qed.

Lemma node_cases (fs : Cli.files) (f : string) :
  removable fs f \/ fs !! f = Some Cli.BrokenLink \/ blocked fs f.
Proof.
  unfold removable, blocked. destruct (fs !! f) as [[[]| |]|]; auto.
Qed.

Lemma blocked_not_removable (fs : Cli.files) (f : string) :
  blocked fs f -> ~ removable fs f /\ ~ gone fs f.
Proof.
  unfold blocked, removable, gone.
  intros [H | H]; rewrite H; split; intros [E | E]; discriminate.
Qed.

(** What one step of the [finally] block leaves under the name it looked
    at, and under the others. *)
Lemma cleanup_one_returns (f : string) (fs fs' : Cli.files) :
  Cli.cleanup_one f fs = (Ret tt, fs') ->
  ~ blocked fs f /\ gone fs' f /\ forall g, g <> f -> fs' !! g = fs !! g.
Proof.
  intros H. destruct (node_cases fs f) as [Hr | [Hl | Hb]].
  - rewrite (cleanup_one_removable f fs Hr) in H. injection H as <-.
    split; [intros Hb; now apply blocked_not_removable in Hb|].
    split; [left; apply lookup_delete_eq|].
    intros g Hg. now rewrite lookup_delete_ne.
  - rewrite (cleanup_one_link f fs Hl) in H. injection H as <-.
    split; [unfold blocked; rewrite Hl; intros [E | E]; discriminate|].
    split; [now right | reflexivity].
  - destruct (cleanup_one_blocked f fs Hb) as [e He]. congruence.
Qed.


Lemma cleanup_one_total (f : string) (fs : Cli.files) :
  ~ blocked fs f -> exists fs', Cli.cleanup_one f fs = (Ret tt, fs').
Proof.
  intros H. destruct (node_cases fs f) as [Hr | [Hl | Hb]];
    [rewrite (cleanup_one_removable f fs Hr)
    | rewrite (cleanup_one_link f fs Hl) | contradiction]; eauto.
Qed.

Lemma temporaries_differ : Cli.video_file <> Cli.audio_file.
Proof. discriminate. Qed.


(** It returns exactly when [os.remove] refuses neither name. *)
Lemma cleanup_returns (fs : Cli.files) :
  (exists fs', Cli.cleanup fs = (Ret tt, fs'))
  <-> ~ blocked fs Cli.video_file /\ ~ blocked fs Cli.audio_file.
Proof.
  unfold Cli.cleanup, Cli.bindM. split.
  - intros [fs' H].
    destruct (Cli.cleanup_one Cli.video_file fs) as [[[]|e] fs1] eqn:E1;
      [|discriminate].
    apply cleanup_one_returns in E1 as (Hv & _ & Hsame).
    apply cleanup_one_returns in H as (Ha & _). split; [exact Hv|].
    unfold blocked in *. rewrite Hsame in Ha; [exact Ha|].
    intros E. now apply temporaries_differ.
  - intros [Hv Ha]. destruct (cleanup_one_total _ fs Hv) as [fs1 E1].
    rewrite E1. apply cleanup_one_total.
    apply cleanup_one_returns in E1 as (_ & _ & Hsame).
    unfold blocked in *. rewrite Hsame; [exact Ha|].
    intros E. now apply temporaries_differ.
Qed.





(** ** The event stream: terminal events *)

Lemma count_app {A : Type} (p : A -> bool) (l1 l2 : list A) :
  count p (l1 ++ l2) = (count p l1 + count p l2)%nat.
Proof. unfold count. now rewrite List.filter_app, List.length_app. Qed.

Lemma count_firstn {A : Type} (p : A -> bool) (n : nat) (l : list A) :
  (count p (firstn n l) <= count p l)%nat.
Proof.
  revert n. induction l as [|x l IH]; intros [|n]; cbn; try lia.
  specialize (IH n). unfold count in *. cbn. destruct (p x); cbn; lia.
Qed.

Lemma count_single {A : Type} (p : A -> bool) (x : A) :
  (count p [x] <= 1)%nat.
Proof. unfold count. cbn. destruct (p x); cbn; lia. Qed.

Lemma prefix_split (p s : string) :
  String.prefix p s = true -> exists t, s = p ++ t.
Proof.
  revert s. induction p as [|c p IH]; intros s H.
  - exists s. reflexivity.
  - destruct s as [|d s]; cbn [String.prefix] in H; [discriminate|].
    destruct (ascii_dec c d) as [-> | _]; [|discriminate].
    destruct (IH s H) as [t ->]. exists t. reflexivity.
Qed.

Lemma rstrip_cons_nonspace (c : ascii) (s : string) :
  Text.is_space c = false ->
  Text.rstrip (String c s) = String c (Text.rstrip s).
Proof. intros H. cbn [Text.rstrip]. rewrite H. now destruct (Text.rstrip s). Qed.

Lemma strip_keeps_error_prefix (s : string) :
  Text.startswith s "ERROR:" = true ->
  Text.startswith (Text.strip s) "ERROR:" = true.
Proof.
  intros H. apply prefix_split in H as [t ->].
  unfold Text.strip. change ("ERROR:" ++ t)
    with (String "E" (String "R" (String "R" (String "O" (String "R"
           (String ":" t)))))).
  rewrite !rstrip_cons_nonspace by reflexivity.
  destruct (Text.rstrip t); reflexivity.
Qed.

Lemma handle_line_not_terminal (line : string) (e : event) :
  handle_line line = Some e -> is_terminal e = false.
Proof.
  unfold handle_line.
  destruct (Re.match_ progress_re (Text.rstrip line)); [now intros [= <-]|].
  repeat match goal with
         | |- context [if ?b then _ else _] => destruct b eqn:?
         end; intros [= <-]; try reflexivity.
  cbn [is_terminal]. now rewrite strip_keeps_error_prefix.
Qed.

Lemma content_events_not_terminal (lines : list string) :
  count is_terminal (content_events lines) = 0%nat.
Proof.
  induction lines as [|l lines IH]; [reflexivity|].
  cbn [content_events]. destruct (handle_line l) as [e|] eqn:E; [|exact IH].
  unfold count in *. cbn [List.filter].
  now rewrite (handle_line_not_terminal l e E).
Qed.

Lemma exit_error_is_terminal (ret : Z) (e : event) :
  is_exit_error ret e = true -> is_terminal e = true.
Proof.
  destruct e; try discriminate. cbn [is_exit_error is_terminal].
  intros H. apply String.eqb_eq in H. subst message. reflexivity.
Qed.

Lemma count_le_terminal (ret : Z) (l : list event) :
  (count (is_exit_error ret) l <= count is_terminal l)%nat.
Proof.
  induction l as [|e l IH]; [reflexivity|]. unfold count in *.
  cbn [List.filter]. destruct (is_exit_error ret e) eqn:E.
  - rewrite (exit_error_is_terminal ret e E). cbn. lia.
  - destruct (is_terminal e); cbn; lia.
Qed.

Lemma count_finished_le_terminal (l : list event) :
  (count is_finished l <= count is_terminal l)%nat.
Proof.
  induction l as [|e l IH]; [reflexivity|]. unfold count in *.
  cbn [List.filter]. destruct e; cbn; try lia.
  destruct (negb _); cbn; lia.
Qed.

Lemma eqb_exit_message (ret : Z) :
  String.eqb ("yt-dlp exited with code " ++ Text.of_Z ret)
             ("yt-dlp exited with code " ++ Text.of_Z ret) = true.
Proof. apply String.eqb_refl. Qed.

(** C2.  When the process exits, the stream holds exactly one terminal
    event, and it is its last event: the finished event when the exit code
    is zero, the error event naming the exit code otherwise; the other kind
    does not occur.  In every run, however far the stream is read, at most
    one terminal event has been sent. *)
Theorem one_terminal_event :
  (forall (lines : list string) (ret : Z),
     let events := sse_stream (Exited lines ret) in
     count is_terminal events = 1%nat
     /\ count is_finished events = (if ret =? 0 then 1%nat else 0%nat)
     /\ count (is_exit_error ret) events = (if ret =? 0 then 0%nat else 1%nat)
     /\ List.last events EvStarting
        = (if ret =? 0 then EvFinished
           else EvError ("yt-dlp exited with code " ++ Text.of_Z ret)))
  /\ (forall (run : popen_run) (n : nat),
        (count is_terminal (firstn n (sse_stream run)) <= 1)%nat).
Proof.
  split.
  - intros lines ret events.
    pose proof (content_events_not_terminal lines) as Hc.
    pose proof (count_le_terminal ret (content_events lines)) as He.
    pose proof (count_finished_le_terminal (content_events lines)) as Hf.
    assert (count is_finished (content_events lines) = 0%nat) as Hf0 by lia.
    assert (count (is_exit_error ret) (content_events lines) = 0%nat) as He0
      by lia.
    subst events. unfold sse_stream.
    change (EvStarting :: ?l) with ([EvStarting] ++ l)%list.
    rewrite !count_app, Hc, Hf0, He0. repeat split.
    + destruct (ret =? 0); reflexivity.
    + destruct (ret =? 0); reflexivity.
    + destruct (ret =? 0); [reflexivity|].
      unfold count. cbn [List.filter is_exit_error].
      now rewrite eqb_exit_message.
    + rewrite List.app_assoc, List.last_last. reflexivity.
  - intros run n. etransitivity; [apply count_firstn|].
    unfold sse_stream. change (EvStarting :: ?l) with ([EvStarting] ++ l)%list.
    destruct run as [msg | lines repr | lines ret];
      rewrite ?count_app, ?content_events_not_terminal;
      change (count is_terminal [EvStarting]) with 0%nat;
      cbn [Nat.add]; apply count_single.
Qed.

(** ** The event stream: the progress pattern *)

Lemma strip_prefix_split (l s s' : string) :
  Re.strip_prefix l s = Some s' -> s = l ++ s'.
Proof.
  revert s. induction l as [|a l IH]; intros s H.
  - cbn in H. now injection H as ->.
  - destruct s as [|b s]; cbn [Re.strip_prefix] in H; [discriminate|].
    destruct (Ascii.eqb a b) eqn:E; [|discriminate].
    apply Ascii.eqb_eq in E. subst b. rewrite append_cons. f_equal. now apply IH.
Qed.

Lemma rep_sound {R : Type} (c : ascii -> bool) (s : string) :
  forall (lo : nat) (hi : option nat) (k : string -> option R) (x : R),
    Re.rep c lo hi s k = Some x ->
    exists w s', s = w ++ s' /\ all c w = true
                 /\ (lo <= String.length w)%nat
                 /\ (forall h, hi = Some h -> (String.length w <= h)%nat)
                 /\ k s' = Some x.
Proof.
  assert (Hstop : forall (t : string) lo (hi : option nat)
                         (k : string -> option R) x,
             match lo with O => k t | S _ => None end = Some x ->
             exists w s', t = w ++ s' /\ all c w = true
                          /\ (lo <= String.length w)%nat
                          /\ (forall h, hi = Some h -> (String.length w <= h)%nat)
                          /\ k s' = Some x).
  { intros t lo hi k x H. destruct lo; [|discriminate].
    exists "", t. cbn. repeat split; auto; intros; lia. }
  induction s as [|a s IH]; intros lo hi k x H.
  - cbn [Re.rep] in H. now apply Hstop.
  - cbn [Re.rep] in H. destruct (c a && Re.more hi) eqn:E; [|now apply Hstop].
    destruct (Re.rep c (Nat.pred lo) (Re.dec hi) s k) as [y|] eqn:Er;
      [|now apply Hstop].
    injection H as ->. apply andb_true_iff in E as [Ea Em].
    destruct (IH _ _ _ _ Er) as (w & s' & -> & Hall & Hlo & Hhi & Hk).
    exists (String a w), s'. rewrite append_cons. cbn [all String.length].
    rewrite Ea, Hall. repeat split; auto; [lia|].
    intros h ->. destruct h as [|h]; [discriminate|].
    specialize (Hhi h eq_refl). lia.
Qed.

Lemma length_append (a b : string) :
  String.length (a ++ b) = (String.length a + String.length b)%nat.
Proof.
  induction a as [|c a IH]; [reflexivity|].
  rewrite append_cons. cbn [String.length]. now rewrite IH.
Qed.

Lemma substring_prefix (w s : string) :
  String.substring 0 (String.length w) (w ++ s) = w.
Proof.
  induction w as [|c w IH].
  - cbn. now destruct s.
  - rewrite append_cons. cbn [String.length String.substring]. now rewrite IH.
Qed.

Lemma consumed_app (w s : string) : Re.consumed (w ++ s) s = w.
Proof.
  unfold Re.consumed. rewrite length_append.
  replace (String.length w + String.length s - String.length s)%nat
    with (String.length w) by lia.
  apply substring_prefix.
Qed.

Lemma append_assoc (a b c : string) : (a ++ b) ++ c = a ++ b ++ c.
Proof.
  induction a as [|x a IH]; [reflexivity|].
  now rewrite !append_cons, IH.
Qed.

(** Whatever the matcher accepts is matched by the pattern. *)
Lemma run_sound {R : Type} (r : regex) :
  forall (s : string) (cs : Re.captures)
         (k : string -> Re.captures -> option R) (x : R),
    Re.run r s cs k = Some x ->
    exists w s' cs', s = w ++ s' /\ matches r w cs cs' /\ k s' cs' = Some x.
Proof.
  induction r as [l | c lo hi | r IH | r1 IH1 r2 IH2 | n r IH];
    intros s cs k x H; cbn [Re.run] in H.
  - destruct (Re.strip_prefix l s) as [s'|] eqn:E; [|discriminate].
    apply strip_prefix_split in E. exists l, s', cs.
    split; [exact E | split; [constructor | exact H]].
  - apply rep_sound in H as (w & s' & -> & Ha & Hlo & Hhi & Hk).
    exists w, s', cs. split; [reflexivity | split; [now constructor | exact Hk]].
  - destruct (Re.run r s cs k) as [y|] eqn:E.
    + injection H as ->. apply IH in E as (w & s' & cs' & -> & Hm & Hk).
      exists w, s', cs'. split; [reflexivity | split; [now constructor | exact Hk]].
    + exists "", s, cs.
      split; [reflexivity | split; [apply M_Opt_none | exact H]].
  - apply IH1 in H as (w1 & s1 & c1 & -> & Hm1 & H).
    apply IH2 in H as (w2 & s2 & c2 & -> & Hm2 & H).
    exists (w1 ++ w2), s2, c2. rewrite append_assoc.
    split; [reflexivity | split; [econstructor; eauto | exact H]].
  - apply IH in H as (w & s' & cs' & -> & Hm & H).
    rewrite consumed_app in H. exists w, s', ((n, w) :: cs').
    split; [reflexivity | split; [now constructor | exact H]].
Qed.

Lemma match_sound (r : regex) (s : string) (m : Re.captures) :
  Re.match_ r s = Some m -> exists w s', s = w ++ s' /\ matches r w [] m.
Proof.
  intros H. apply run_sound in H as (w & s' & cs' & -> & Hm & [= <-]).
  now exists w, s'.
Qed.

(** ** [float] on the text of the percent group *)

Lemma digit_cases (c : ascii) :
  Text.is_digit c = true ->
  In c ["0"; "1"; "2"; "3"; "4"; "5"; "6"; "7"; "8"; "9"]%char.
Proof.
  destruct c as [[] [] [] [] [] [] [] []]; intros H;
    try discriminate H; cbn; tauto.
Qed.

Ltac digit_case H :=
  apply digit_cases in H; cbn [In] in H;
  repeat (destruct H as [<- | H]); [.. | destruct H].

Lemma digit_nonspace (c : ascii) :
  Text.is_digit c = true -> Text.is_space c = false.
Proof. intros H. digit_case H; reflexivity. Qed.

Lemma rstrip_nonspace (s : string) :
  all Re.nonspace s = true -> Text.rstrip s = s.
Proof.
  induction s as [|a s IH]; [reflexivity|]. cbn [all].
  rewrite andb_true_iff. intros [Ha Hs].
  rewrite rstrip_cons_nonspace, IH; auto.
  unfold Re.nonspace in Ha. now destruct (Text.is_space a).
Qed.

Lemma strip_nonspace (s : string) :
  all Re.nonspace s = true -> Text.strip s = s.
Proof.
  intros H. unfold Text.strip. rewrite (rstrip_nonspace s H).
  destruct s as [|a s]; [reflexivity|]. cbn [all] in H.
  apply andb_true_iff in H as [Ha _]. unfold Re.nonspace in Ha.
  cbn [Text.lstrip]. now destruct (Text.is_space a).
Qed.

Lemma digitpart_rest_digits (d rest : string) :
  all Re.digit d = true -> ends_digits rest ->
  Float.digitpart_rest (d ++ rest) = Some (digit_values d, rest).
Proof.
  intros Hd Hr. induction d as [|c d IH].
  - rewrite append_nil. destruct rest as [|c r]; [reflexivity|].
    destruct Hr as [H1 H2]. cbn [Float.digitpart_rest]. rewrite H1.
    apply Ascii.eqb_neq in H2. now rewrite H2.
  - cbn [all] in Hd. apply andb_true_iff in Hd as [Hc Hd].
    rewrite append_cons. cbn [Float.digitpart_rest].
    unfold Re.digit in Hc. rewrite Hc, (IH Hd). reflexivity.
Qed.

Lemma digitpart_digits (c : ascii) (d rest : string) :
  all Re.digit (String c d) = true -> ends_digits rest ->
  Float.digitpart (String c d ++ rest)
  = Some (digit_values (String c d), rest).
Proof.
  intros Hd Hr. cbn [all] in Hd. apply andb_true_iff in Hd as [Hc Hd].
  rewrite append_cons. cbn [Float.digitpart]. unfold Re.digit in Hc.
  rewrite Hc, (digitpart_rest_digits d rest Hd Hr). reflexivity.
Qed.

Lemma signed_digit (c : ascii) (s : string) :
  Text.is_digit c = true -> Float.signed (String c s) = (false, String c s).
Proof. intros H. digit_case H; reflexivity. Qed.

Lemma not_special (c : ascii) (s : string) :
  Text.is_digit c = true ->
  let l := Text.lower (String c s) in
  String.eqb l "inf" || String.eqb l "infinity" = false
  /\ String.eqb l "nan" = false.
Proof. intros H. digit_case H; split; reflexivity. Qed.

Lemma number_digit (c : ascii) (s : string) :
  Text.is_digit c = true ->
  Float.number (String c s)
  = match Float.digitpart (String c s) with
    | Some (ds, String "." r) =>
        if Float.starts_with_digit r then
          match Float.digitpart r with
          | Some (fs, r') => Some (ds, fs, r')
          | None => None
          end
        else Some (ds, [], r)
    | Some (ds, r) => Some (ds, [], r)
    | None => None
    end.
Proof. intros H. digit_case H; reflexivity. Qed.

Lemma float_of_percent_text (p : string) :
  percent_text p -> exists q, Float.parse p = Some (Finite q).
Proof.
  intros (c & d & tail & -> & Hd & Ht).
  assert (Hc : Text.is_digit c = true)
    by (cbn [all] in Hd; now apply andb_true_iff in Hd as [? _]).
  assert (Hns : all Re.nonspace (String c d ++ tail) = true).
  { rewrite all_app. apply andb_true_iff. split.
    - eapply all_impl; [|exact Hd]. intros a Ha. unfold Re.nonspace.
      now rewrite (digit_nonspace a Ha).
    - destruct Ht as [-> | (c' & f & -> & Hf)]; [reflexivity|].
      rewrite all_cons. apply andb_true_iff. split; [reflexivity|].
      eapply all_impl; [|exact Hf]. intros a Ha. unfold Re.nonspace.
      now rewrite (digit_nonspace a Ha). }
  unfold Float.parse. rewrite (strip_nonspace _ Hns).
  rewrite append_cons, (signed_digit c _ Hc).
  destruct (not_special c (d ++ tail) Hc) as [-> ->].
  rewrite (number_digit c _ Hc), <- append_cons.
  destruct Ht as [-> | (c' & f & -> & Hf)].
  - rewrite (digitpart_digits c d "" Hd I). cbn [Float.exponent]. eauto.
  - rewrite (digitpart_digits c d _ Hd) by (split; [reflexivity | discriminate]).
    assert (Hc' : Text.is_digit c' = true)
      by (cbn [all] in Hf; now apply andb_true_iff in Hf as [? _]).
    cbn [Float.starts_with_digit]. rewrite Hc'.
    replace (String c' f) with (String c' f ++ "").
    2:{ clear. generalize (String c' f). intros s.
        induction s as [|x s IH]; [reflexivity|]. now rewrite append_cons, IH. }
    rewrite (digitpart_digits c' f "" Hf I). cbn [Float.exponent]. eauto.
Qed.

(** ** The event stream: downloading events *)

Ltac invert H := inversion H; subst; clear H.

Lemma nonempty_cons (w : string) :
  (1 <= String.length w)%nat -> exists c d, w = String c d.
Proof. destruct w as [|c d]; cbn; [lia | eauto]. Qed.

Lemma matches_percent (p : string) (cs cs' : Re.captures) :
  matches percent_re p cs cs' -> percent_text p /\ cs' = cs.
Proof.
  unfold percent_re, Re.plus. intros H. invert H.
  match goal with H : matches (Rep _ _ _) _ _ _ |- _ => invert H end.
  match goal with H : (1 <= String.length _)%nat |- _ =>
    apply nonempty_cons in H as (c & d & ->) end.
  match goal with H : matches (Opt _) _ _ _ |- _ => invert H end.
  - match goal with H : matches (Seq _ _) _ _ _ |- _ => invert H end.
    match goal with H : matches (Lit _) _ _ _ |- _ => invert H end.
    match goal with H : matches (Rep _ _ _) _ _ _ |- _ => invert H end.
    match goal with H : (1 <= String.length _)%nat |- _ =>
      apply nonempty_cons in H as (c' & f & ->) end.
    split; [|reflexivity]. exists c, d, (String "." (String c' f)).
    repeat split; auto. right. eauto.
  - split; [|reflexivity]. exists c, d, "". repeat split; auto.
Qed.

(** The groups of a line that [progress_re] matches. *)
Lemma progress_groups (line : string) (m : Re.captures) :
  Re.match_ progress_re line = Some m ->
  exists p size speed eta,
    m = [("eta", eta); ("speed", speed); ("size", size); ("pct", p)]
    /\ percent_text p.
Proof.
  intros H. apply match_sound in H as (w & s' & _ & H).
  unfold progress_re in H. cbn [Re.seq] in H. fold percent_re in H.
  repeat match goal with
         | H : matches (Seq _ _) _ _ _ |- _ => invert H
         | H : matches (Lit _) _ _ _ |- _ => invert H
         | H : matches (Re.plus _) _ _ _ |- _ => invert H
         | H : matches (Grp _ _) _ _ _ |- _ => invert H
         end.
  match goal with H : matches percent_re _ _ _ |- _ =>
    apply matches_percent in H as [Hp ->] end.
  eauto 10.
Qed.

Lemma handle_line_percent (line : string) (pct : option pyfloat)
      (size speed eta : option string) :
  handle_line line = Some (EvDownloading pct size speed eta) ->
  exists q, pct = Some (Finite q).
Proof.
  unfold handle_line.
  destruct (Re.match_ progress_re (Text.rstrip line)) as [m|] eqn:E.
  - apply progress_groups in E as (p & sz & sp & et & -> & Hp).
    cbn [Re.group String.eqb]. intros [= <- _ _ _].
    change (Re.group _ "pct") with (Some p).
    exact (float_of_percent_text p Hp).
  - repeat match goal with
           | |- context [if ?b then _ else _] => destruct b
           end; discriminate.
Qed.

Lemma in_content_events (e : event) (lines : list string) :
  In e (content_events lines) ->
  exists l, In l lines /\ handle_line l = Some e.
Proof.
  induction lines as [|l lines IH]; [intros []|]. cbn [content_events].
  destruct (handle_line l) as [e'|] eqn:E.
  - intros [<- | H]; [exists l; split; [now left | exact E]|].
    destruct (IH H) as (l' & Hl & He). exists l'. split; [now right | exact He].
  - intros H. destruct (IH H) as (l' & Hl & He).
    exists l'. split; [now right | exact He].
Qed.

(** The progress line of the tool's documentation. *)
Example progress_line_example :
  handle_line "[download]  42.5% of 10.00MiB at 1.00MiB/s ETA 00:05"
  = Some (EvDownloading (Some (Finite (425 # 10))) (Some "10.00MiB")
                        (Some "1.00MiB/s") (Some "00:05")).
Proof. vm_compute. reflexivity. Qed.

(** C9.  Every downloading event of the stream carries a percent that is a
    finite number: on a line that [progress_re] matches, [float] succeeds on
    the text of the [pct] group, so the branch that sets the percent to
    [None] is never taken. *)
Theorem downloading_percent_numeric :
  (forall (line : string) (m : Re.captures),
     Re.match_ progress_re (Text.rstrip line) = Some m ->
     exists t q, Re.group m "pct" = Some t /\ Float.parse t = Some (Finite q))
  /\ (forall (run : popen_run) (pct : option pyfloat)
             (size speed eta : option string),
        In (EvDownloading pct size speed eta) (sse_stream run) ->
        exists q, pct = Some (Finite q)).
Proof.
  split.
  - intros line m H. apply progress_groups in H as (p & sz & sp & et & -> & Hp).
    destruct (float_of_percent_text p Hp) as [q Hq]. exists p, q.
    split; [reflexivity | exact Hq].
  - intros run pct size speed eta H. unfold sse_stream in H.
    destruct H as [H | H]; [discriminate|].
    assert (In (EvDownloading pct size speed eta)
               (match run with
                | NotFound _ => []
                | Failed lines _ | Exited lines _ => content_events lines
                end)) as Hc.
    { destruct run as [msg | lines repr | lines ret].
      - destruct H as [H | []]. discriminate.
      - apply in_app_or in H as [H | [H | []]]; [exact H | discriminate].
      - apply in_app_or in H as [H | [H | []]]; [exact H|].
        destruct (ret =? 0); discriminate. }
    assert (exists lines, In (EvDownloading pct size speed eta)
                             (content_events lines)) as [lines Hl]
      by (destruct run; [destruct Hc | eauto | eauto]).
    apply in_content_events in Hl as (l & _ & Hl).
    exact (handle_line_percent l pct size speed eta Hl).
Qed.

Lemma downloading_percent_numeric_witness :
  exists q, Some (Finite (425 # 10)) = Some (Finite q).
Proof.
  apply (proj2 downloading_percent_numeric
               (Exited ["[download]  42.5% of 10.00MiB at 1.00MiB/s ETA 00:05"] 0)
               (Some (Finite (425 # 10)))
               (Some "10.00MiB") (Some "1.00MiB/s") (Some "00:05")).
  right. left. vm_compute. reflexivity.
Defined.

(** ** The format classifier *)

Lemma is_none_null (c : option string) :
  is_none c = true <-> codec_null c.
Proof.
  unfold codec_null. destruct c as [s|]; cbn; [|split; discriminate].
  rewrite String.eqb_eq. split; congruence.
Qed.

Lemma video_test (f : format) :
  negb (is_none (f_vcodec f)) && is_none (f_acodec f) = true <-> video_only f.
Proof.
  unfold video_only. rewrite andb_true_iff, negb_true_iff, <- !is_none_null.
  destruct (is_none (f_vcodec f)); intuition congruence.
Qed.

Lemma audio_test (f : format) :
  negb (is_none (f_acodec f)) && is_none (f_vcodec f) = true <-> audio_only f.
Proof.
  unfold audio_only. rewrite andb_true_iff, negb_true_iff, <- !is_none_null.
  destruct (is_none (f_acodec f)); intuition congruence.
Qed.

Lemma not_both (f : format) : ~ (video_only f /\ audio_only f).
Proof. unfold video_only, audio_only. tauto. Qed.

(** The three cases of the tests of the loop. *)
Lemma classify_cases (f : format) :
  (video_only f /\ ~ audio_only f
   /\ negb (is_none (f_vcodec f)) && is_none (f_acodec f) = true)
  \/ (audio_only f /\ ~ video_only f
      /\ negb (is_none (f_vcodec f)) && is_none (f_acodec f) = false
      /\ negb (is_none (f_acodec f)) && is_none (f_vcodec f) = true)
  \/ (~ video_only f /\ ~ audio_only f
      /\ negb (is_none (f_vcodec f)) && is_none (f_acodec f) = false
      /\ negb (is_none (f_acodec f)) && is_none (f_vcodec f) = false).
Proof.
  pose proof (video_test f) as Hv. pose proof (audio_test f) as Ha.
  pose proof (not_both f) as Hn.
  destruct (negb (is_none (f_vcodec f)) && is_none (f_acodec f));
    destruct (negb (is_none (f_acodec f)) && is_none (f_vcodec f));
    intuition congruence.
Qed.

(** The loop of [cli.py] keeps, in the order of the tool, the descriptors
    that pass each test. *)
Lemma cli_classify_acc (formats : list format) (v0 a0 : list format) :
  fold_left Cli.classify_step formats (v0, a0)
  = (v0 ++ filter video_only formats, a0 ++ filter audio_only formats)%list.
Proof.
  revert v0 a0. induction formats as [|f formats IH]; intros v0 a0.
  - cbn. now rewrite !List.app_nil_r.
  - cbn [fold_left]. unfold Cli.classify_step at 2. cbn [fst snd].
    rewrite !filter_cons.
    destruct (classify_cases f) as [(Hv & Ha & E) | [(Ha & Hv & E1 & E2)
                                                    | (Hv & Ha & E1 & E2)]].
    + rewrite E, IH, decide_True, decide_False by assumption.
      now rewrite <- List.app_assoc.
    + rewrite E1, E2, IH, decide_False, decide_True by assumption.
      now rewrite <- List.app_assoc.
    + rewrite E1, E2, IH, !decide_False by assumption. reflexivity.
Qed.

Lemma cli_classify_filter (formats : list format) :
  Cli.classify_loop formats
  = (filter video_only formats, filter audio_only formats).
Proof. apply cli_classify_acc. Qed.

Lemma api_classify_acc (formats : list format) (v0 a0 v a : list item) :
  classify_loop formats (v0, a0) = Ret (v, a) ->
  exists v1 a1,
    v = (v0 ++ v1)%list /\ a = (a0 ++ a1)%list
    /\ Forall2 item_of (filter video_only formats) v1
    /\ Forall2 item_of (filter audio_only formats) a1.
Proof.
  revert v0 a0. induction formats as [|f formats IH]; intros v0 a0 H.
  - cbn in H. injection H as <- <-. exists [], [].
    rewrite !List.app_nil_r. repeat split; constructor.
  - cbn [classify_loop] in H. unfold classify_step in H.
    destruct (make_item f) as [it|e] eqn:Ei; [|discriminate].
    cbn [bind fst snd] in H. rewrite !filter_cons.
    destruct (classify_cases f) as [(Hv & Ha & E) | [(Ha & Hv & E1 & E2)
                                                    | (Hv & Ha & E1 & E2)]].
    + rewrite E in H. cbn [bind] in H.
      apply IH in H as (v1 & a1 & -> & -> & H1 & H2).
      exists (it :: v1), a1. rewrite decide_True, decide_False by assumption.
      rewrite <- List.app_assoc. repeat split; auto; now constructor.
    + rewrite E1, E2 in H. cbn [bind] in H.
      apply IH in H as (v1 & a1 & -> & -> & H1 & H2).
      exists v1, (it :: a1). rewrite decide_False, decide_True by assumption.
      rewrite <- List.app_assoc. repeat split; auto; now constructor.
    + rewrite E1, E2 in H. cbn [bind] in H.
      apply IH in H as (v1 & a1 & -> & -> & H1 & H2).
      exists v1, a1. rewrite !decide_False by assumption. auto.
Qed.

(** The loop of [app.py] completes when every dictionary can be built. *)
Lemma api_classify_total (formats : list format) (acc : list item * list item) :
  Forall (fun f => exists it, item_of f it) formats ->
  exists lists, classify_loop formats acc = Ret lists.
Proof.
  intros H. revert acc. induction H as [|f formats [it Hi] _ IH]; intros acc.
  - eexists. reflexivity.
  - cbn [classify_loop]. unfold classify_step. rewrite Hi. cbn [bind].
    destruct (negb (is_none (f_vcodec f)) && is_none (f_acodec f));
      [apply IH|].
    destruct (negb (is_none (f_acodec f)) && is_none (f_vcodec f)); apply IH.
Qed.

(** C1.  Both classifiers put a descriptor of the tool's list in the video
    list exactly when its video codec is not null and its audio codec is
    null, in the audio list exactly when its audio codec is not null and its
    video codec is null, and in no list otherwise: each list is the
    selection, in order, of the descriptors that pass its test ([cli.py]
    keeps the descriptor, [app.py] the dictionary built from it), and no
    descriptor passes both tests. *)
Theorem classifier_partitions (formats : list format) :
  Cli.classify_loop formats
  = (filter video_only formats, filter audio_only formats)
  /\ (forall v a : list item,
        classify_loop formats ([], []) = Ret (v, a) ->
        Forall2 item_of (filter video_only formats) v
        /\ Forall2 item_of (filter audio_only formats) a)
  /\ (forall f, In f formats ->
        (In f (filter video_only formats) <-> video_only f)
        /\ (In f (filter audio_only formats) <-> audio_only f)
        /\ ~ (video_only f /\ audio_only f)).
Proof.
  split; [apply cli_classify_filter | split].
  - intros v a H. apply api_classify_acc in H as (v1 & a1 & -> & -> & H1 & H2).
    auto.
  - intros f Hf. rewrite <- !list_elem_of_In, !list_elem_of_filter.
    apply list_elem_of_In in Hf.
    split; [tauto | split; [tauto | apply not_both]].
Qed.

Lemma classifier_partitions_witness :
  Forall2 item_of (filter video_only sample_formats)
          [sample_item (sample_video "160" 144) (Some "2.0 KB");
           sample_item (sample_video "137" 1080) (Some "2.0 KB")]
  /\ Forall2 item_of (filter audio_only sample_formats)
             [sample_item (sample_audio "139" 48) None;
              sample_item (sample_audio "140" 128) None].
Proof.
  apply (proj1 (proj2 (classifier_partitions sample_formats))).
  vm_compute. reflexivity.
Defined.

(** ** Sorting *)

Section SortProperties.

Context {A K : Type} (key : A -> K) (lt : K -> K -> bool).
Variable le : K -> K -> Prop.
Hypothesis lt_le : forall a b, lt a b = true -> le a b.
Hypothesis not_lt_le : forall a b, lt a b = false -> le b a.
Hypothesis le_trans : forall a b c, le a b -> le b c -> le a c.






End SortProperties.

(** ** The order of the lists *)










Section ApiSorted.

Variable YT_DLP : string.
Variable subprocess_run : list string -> option (string * string * Z).
Variable json_loads : string -> string + option info.



End ApiSorted.





(** ** [human_bytes] *)

Lemma floor_log1024_spec (q : Q) :
  (1 <= q)%Q ->
  let i := Py.floor_log1024 q in
  0 <= i /\ (inject_Z (1024 ^ i) <= q)%Q /\ (q < inject_Z (1024 ^ (i + 1)))%Q.
Proof.
  intros Hq. unfold Py.floor_log1024.
  assert (Qle_bool 1 q = true) as -> by now apply Qle_bool_iff.
  set (z := Qfloor q).
  assert (Hz : 1 <= z) by (change 1 with (Qfloor 1); now apply Qfloor_resp_le).
  pose proof (Z.log2_spec z ltac:(lia)) as [Hlo Hhi].
  pose proof (Z.log2_nonneg z) as Hnn.
  set (l := Z.log2 z) in *. set (i := l / 10).
  assert (Hi : 10 * i <= l < 10 * i + 10)
    by (unfold i; pose proof (Z.div_mod l 10 ltac:(lia));
        pose proof (Z.mod_pos_bound l 10 ltac:(lia)); lia).
  assert (Hi0 : 0 <= i) by (unfold i; apply Z.div_pos; lia).
  assert (Hp : forall k, 0 <= k -> 1024 ^ k = 2 ^ (10 * k))
    by (intros k Hk; rewrite Z.pow_mul_r by lia; reflexivity).
  assert (H1 : 1024 ^ i <= z).
  { rewrite Hp by lia. etransitivity; [|exact Hlo].
    apply Z.pow_le_mono_r; lia. }
  assert (H2 : z + 1 <= 1024 ^ (i + 1)).
  { rewrite Hp by lia. replace (10 * (i + 1)) with (10 * i + 10) by lia.
    assert (2 ^ Z.succ l <= 2 ^ (10 * i + 10))
      by (apply Z.pow_le_mono_r; lia). lia. }
  split; [exact Hi0 | split].
  - eapply Qle_trans; [|apply Qfloor_le]. fold z. rewrite <- Zle_Qle. exact H1.
  - eapply Qlt_le_trans; [apply Qlt_floor|]. fold z.
    rewrite <- Zle_Qle. exact H2.
Qed.

(** C3.  The formatter maps 0 to ["0 B"] and 1024 to ["1.0 KB"], but it does
    not clamp the unit: the index of the unit is used as computed, so 1024^5
    bytes, one unit beyond ["TB"], raise [IndexError], and half a byte, one
    unit below ["B"], is reported in ["TB"], the last unit of the list. *)
Theorem human_bytes_unit_not_clamped :
  human_bytes (Num 0) = Ret (Some "0 B")
  /\ human_bytes (Num 1024) = Ret (Some "1.0 KB")
  /\ human_bytes (Num (inject_Z (1024 ^ 5))) = Raise IndexError
  /\ human_bytes (Num (1 # 2)) = Ret (Some "512.0 TB").
Proof. repeat split; vm_compute; reflexivity. Qed.


(* ===================================================================== *)
(** * Part IV: further properties of the code *)
(* ===================================================================== *)

(** ** Stripping *)

Lemma lstrip_idem (s : string) : Text.lstrip (Text.lstrip s) = Text.lstrip s.
Proof.
  induction s as [|c s IH]; [reflexivity|]. cbn [Text.lstrip].
  destruct (Text.is_space c) eqn:E; [exact IH|].
  cbn [Text.lstrip]. now rewrite E.
Qed.

Lemma rstrip_idem (s : string) : Text.rstrip (Text.rstrip s) = Text.rstrip s.
Proof.
  induction s as [|c s IH]; [reflexivity|]. cbn [Text.rstrip].
  destruct (Text.rstrip s) as [|d r] eqn:E.
  - destruct (Text.is_space c) eqn:Ec; [reflexivity|].
    cbn [Text.rstrip]. now rewrite Ec.
  - change (Text.rstrip (String c (String d r)))
      with (match Text.rstrip (String d r) with
            | EmptyString =>
                if Text.is_space c then EmptyString else String c EmptyString
            | r' => String c r'
            end).
    now rewrite IH.
Qed.

Lemma rstrip_fixed_tail (c : ascii) (t : string) :
  Text.rstrip (String c t) = String c t ->
  Text.is_space c = true -> Text.rstrip t = t.
Proof.
  cbn [Text.rstrip]. intros H Hc. rewrite Hc in H.
  destruct (Text.rstrip t) as [|d r]; [discriminate|]. now injection H.
Qed.

Lemma rstrip_lstrip (t : string) :
  Text.rstrip t = t -> Text.rstrip (Text.lstrip t) = Text.lstrip t.
Proof.
  induction t as [|c t IH]; [reflexivity|]. intros H. cbn [Text.lstrip].
  destruct (Text.is_space c) eqn:E; [|exact H].
  apply IH. now apply (rstrip_fixed_tail c).
Qed.

Lemma strip_idem (s : string) : Text.strip (Text.strip s) = Text.strip s.
Proof.
  unfold Text.strip.
  rewrite (rstrip_lstrip (Text.rstrip s) (rstrip_idem s)).
  apply lstrip_idem.
Qed.

(** Stripping keeps a property that every character has. *)
Lemma all_lstrip (p : ascii -> bool) (s : string) :
  all p s = true -> all p (Text.lstrip s) = true.
Proof.
  induction s as [|c s IH]; [reflexivity|]. intros H. cbn [Text.lstrip].
  destruct (Text.is_space c); [|exact H].
  rewrite all_cons in H. apply andb_true_iff in H as [_ H]. now apply IH.
Qed.

Lemma all_rstrip (p : ascii -> bool) (s : string) :
  all p s = true -> all p (Text.rstrip s) = true.
Proof.
  induction s as [|c s IH]; [reflexivity|]. rewrite all_cons.
  intros H. apply andb_true_iff in H as [Hc Hs]. cbn [Text.rstrip].
  specialize (IH Hs). destruct (Text.rstrip s) as [|d r].
  - destruct (Text.is_space c); [reflexivity|]. cbn. now rewrite Hc.
  - rewrite all_cons. now rewrite Hc, IH.
Qed.

Lemma all_keep (p : ascii -> bool) (s : string) : all p (Text.keep p s) = true.
Proof.
  induction s as [|c s IH]; [reflexivity|]. cbn [Text.keep].
  destruct (p c) eqn:E; [|exact IH]. rewrite all_cons. now rewrite E, IH.
Qed.

Lemma keep_all (p : ascii -> bool) (s : string) :
  all p s = true -> Text.keep p s = s.
Proof.
  induction s as [|c s IH]; [reflexivity|]. rewrite all_cons.
  intros H. apply andb_true_iff in H as [Hc Hs]. cbn [Text.keep].
  now rewrite Hc, (IH Hs).
Qed.

Lemma all_in (p : ascii -> bool) (s : string) (c : ascii) :
  all p s = true -> In c (list_ascii_of_string s) -> p c = true.
Proof.
  induction s as [|a s IH]; [intros _ []|]. rewrite all_cons.
  intros H. apply andb_true_iff in H as [Ha Hs].
  cbn [list_ascii_of_string In]. intros [<- | Hc]; [exact Ha | now apply IH].
Qed.

Lemma keep_char_safe (c : ascii) : Cli.keep_char c = true -> safe_char c.
Proof.
  unfold Cli.keep_char, safe_char. rewrite !orb_true_iff, !Ascii.eqb_eq.
  tauto.
Qed.

(** ** [safe_filename] *)

(** X1.  The name [safe_filename] returns is made of letters, digits,
    spaces, underscores and hyphens only, so it holds no path separator and
    no dot; stripping it again changes nothing, and neither does applying
    [safe_filename] to it. *)
Theorem safe_filename_is_safe (name : string) :
  let r := Cli.safe_filename name in
  (forall c, In c (list_ascii_of_string r) -> safe_char c)
  /\ ~ In "/"%char (list_ascii_of_string r)
  /\ ~ In "."%char (list_ascii_of_string r)
  /\ Text.strip r = r
  /\ Cli.safe_filename r = r.
Proof.
  cbv zeta. unfold Cli.safe_filename.
  assert (Ha : all Cli.keep_char
                   (Text.strip (Text.keep Cli.keep_char name)) = true)
    by (unfold Text.strip; apply all_lstrip, all_rstrip, all_keep).
  repeat split.
  - intros c Hc. apply keep_char_safe. exact (all_in _ _ c Ha Hc).
  - intros Hc. pose proof (all_in _ _ _ Ha Hc) as H. discriminate H.
  - intros Hc. pose proof (all_in _ _ _ Ha Hc) as H. discriminate H.
  - apply strip_idem.
  - rewrite (keep_all _ _ Ha). apply strip_idem.
Qed.

(** ** Playlist detection *)

Lemma contains_split (sub s : string) :
  Text.contains sub s = true -> exists a b, s = a ++ sub ++ b.
Proof.
  induction s as [|c s IH]; cbn [Text.contains].
  - rewrite orb_false_r. intros H. apply prefix_split in H as [t H].
    exists "", t. exact H.
  - rewrite orb_true_iff. intros [H | H].
    + apply prefix_split in H as [t H]. exists "", t. exact H.
    + destruct (IH H) as (a & b & ->). exists (String c a), b. reflexivity.
Qed.

Lemma lower_length (s : string) :
  String.length (Text.lower s) = String.length s.
Proof. induction s as [|c s IH]; cbn; [reflexivity | now rewrite IH]. Qed.

Lemma lower_split (s a b : string) :
  Text.lower s = a ++ b ->
  exists s1 s2, s = s1 ++ s2 /\ Text.lower s1 = a /\ Text.lower s2 = b.
Proof.
  revert s. induction a as [|x a IH]; intros s H.
  - exists "", s. repeat split. exact H.
  - destruct s as [|c s]; [discriminate|].
    rewrite append_cons in H. cbn [Text.lower] in H. injection H as Hx H.
    destruct (IH s H) as (s1 & s2 & -> & H1 & H2).
    exists (String c s1), s2. repeat split; [|exact H2].
    cbn [Text.lower]. now rewrite Hx, H1.
Qed.

Lemma lower_contains_ci (marker url : string) :
  Text.contains marker (Text.lower url) = true -> contains_ci marker url.
Proof.
  intros H. apply contains_split in H as (a & b & H).
  apply lower_split in H as (pre & rest & -> & _ & H).
  apply lower_split in H as (mid & post & -> & H & _).
  now exists pre, mid, post.
Qed.

(** X2.  [is_probably_playlist] answers true exactly for the URLs that
    contain ["list="] or ["/playlist"] in some letter case; in particular it
    answers false for the empty URL. *)
Theorem playlist_detection_exact (url : string) :
  (is_probably_playlist url = true
   <-> contains_ci "list=" url \/ contains_ci "/playlist" url)
  /\ is_probably_playlist "" = false.
Proof.
  split; [|reflexivity]. split; [|apply playlist_marker_detected].
  unfold is_probably_playlist. rewrite orb_true_iff.
  intros [H | H]; [left | right]; now apply lower_contains_ci.
Qed.

(** ** The events of the lines *)

Lemma content_events_app (l1 l2 : list string) :
  content_events (l1 ++ l2) = (content_events l1 ++ content_events l2)%list.
Proof.
  induction l1 as [|l l1 IH]; [reflexivity|].
  cbn [List.app content_events]. destruct (handle_line l); [|exact IH].
  cbn [List.app]. now rewrite IH.
Qed.

Lemma content_events_length (lines : list string) :
  (List.length (content_events lines) <= List.length lines)%nat.
Proof.
  induction lines as [|l lines IH]; [reflexivity|]. cbn [content_events].
  destruct (handle_line l); cbn [List.length]; lia.
Qed.

(** X3.  The content events depend on each line alone: the events of two
    batches of lines read one after the other are the events of the first
    batch followed by those of the second, and a batch never yields more
    events than it has lines. *)
Theorem content_events_by_line (l1 l2 : list string) :
  content_events (l1 ++ l2) = (content_events l1 ++ content_events l2)%list
  /\ (List.length (content_events (l1 ++ l2))
      <= List.length l1 + List.length l2)%nat.
Proof.
  split; [apply content_events_app|].
  rewrite <- List.length_app. apply content_events_length.
Qed.

Lemma handle_line_not_starting (line : string) (e : event) :
  handle_line line = Some e -> is_starting e = false.
Proof.
  unfold handle_line.
  destruct (Re.match_ progress_re (Text.rstrip line)); [now intros [= <-]|].
  repeat match goal with
         | |- context [if ?b then _ else _] => destruct b
         end; intros [= <-]; reflexivity.
Qed.

Lemma content_events_not_starting (lines : list string) :
  count is_starting (content_events lines) = 0%nat.
Proof.
  induction lines as [|l lines IH]; [reflexivity|].
  cbn [content_events]. destruct (handle_line l) as [e|] eqn:E; [|exact IH].
  unfold count in *. cbn [List.filter].
  now rewrite (handle_line_not_starting l e E).
Qed.

(** X4.  Every stream read to its end begins with the starting event, which
    occurs once, and ends with a finished or an error event; it holds at
    least these two events. *)
Theorem stream_starts_and_closes (run : popen_run) :
  List.hd EvFinished (sse_stream run) = EvStarting
  /\ count is_starting (sse_stream run) = 1%nat
  /\ closes_stream (List.last (sse_stream run) EvStarting) = true
  /\ (2 <= List.length (sse_stream run))%nat.
Proof.
  split; [reflexivity|]. unfold sse_stream.
  change (EvStarting :: ?l) with ([EvStarting] ++ l)%list.
  destruct run as [msg | lines repr | lines ret].
  - repeat split; cbn; lia.
  - rewrite !count_app, content_events_not_starting, List.app_assoc,
      List.last_last, !List.length_app. repeat split. cbn. lia.
  - rewrite !count_app, content_events_not_starting, List.app_assoc,
      List.last_last, !List.length_app. repeat split.
    + destruct (ret =? 0); reflexivity.
    + destruct (ret =? 0); reflexivity.
    + cbn. lia.
Qed.

(** X5.  The message of every content event is stripped: it has no space at
    either end. *)
Theorem event_messages_stripped (line : string) (e : event) (m : string) :
  handle_line line = Some e -> event_message e = Some m -> Text.strip m = m.
Proof.
  unfold handle_line.
  destruct (Re.match_ progress_re (Text.rstrip line));
    [intros [= <-]; discriminate|].
  repeat match goal with
         | |- context [if ?b then _ else _] => destruct b
         end; intros [= <-]; cbn [event_message]; intros [= <-];
    apply strip_idem.
Qed.

Lemma event_messages_stripped_witness :
  Text.strip "clip one.mp4" = "clip one.mp4".
Proof.
  apply (event_messages_stripped
           "[download] Destination:   clip one.mp4  "
           (EvDestination "clip one.mp4") "clip one.mp4");
    vm_compute; reflexivity.
Defined.

(** ** The format-listing endpoint: commands, status and lists *)

Section ApiShape.

Variable YT_DLP : string.
Variable subprocess_run : list string -> option (string * string * Z).
Variable json_loads : string -> string + option info.

Let api := get_formats_api YT_DLP subprocess_run json_loads.





End ApiShape.


Section ApiFailures.

Variable YT_DLP : string.
Variable subprocess_run : list string -> option (string * string * Z).
Variable json_loads : string -> string + option info.

Let api := get_formats_api YT_DLP subprocess_run json_loads.






End ApiFailures.



(** ** [human_bytes]: errors and range *)

Lemma index_units_out (i : Z) : 5 <= i -> Py.index units i = Raise IndexError.
Proof.
  intros H. unfold Py.index.
  change (Z.of_nat (List.length units)) with 5. cbv zeta.
  destruct (i <? 0) eqn:E1; [lia|]. rewrite ?E1.
  destruct (5 <=? i) eqn:E2; [reflexivity | lia].
Qed.

(** X9.  [human_bytes] on an integer it cannot express: from 1024^5 up to
    the range of the floats it raises [IndexError] (the list of units ends
    at ["TB"]), on a negative integer within that range [ValueError]; an
    integer beyond the range of the floats gives [None], as does a value
    that is not a number. *)
Theorem human_bytes_errors (n : Z) :
  (1024 ^ 5 <= n < Py.float_overflow ->
   human_bytes (Num (inject_Z n)) = Raise IndexError)
  /\ (- Py.float_overflow < n < 0 ->
      human_bytes (Num (inject_Z n)) = Raise ValueError)
  /\ (Py.float_overflow <= n \/ n <= - Py.float_overflow ->
      human_bytes (Num (inject_Z n)) = Ret None)
  /\ human_bytes NotNum = Ret None.
Proof.
  assert (Hover : 0 < Py.float_overflow) by reflexivity.
  split; [|split; [|split; [|reflexivity]]].
  - intros [H5 Hf]. set (q := inject_Z n).
    assert (H1 : (1 <= q)%Q)
      by (unfold q; change 1%Q with (inject_Z 1); rewrite <- Zle_Qle; lia).
    assert (H5q : (inject_Z (1024 ^ 5) <= q)%Q)
      by (unfold q; now rewrite <- Zle_Qle).
    destruct (floor_log1024_spec q H1) as (Hi0 & Hlo & Hhi).
    set (i := Py.floor_log1024 q) in *.
    assert (Hi : 5 <= i).
    { destruct (Z_lt_ge_dec i 5) as [Hlt|]; [exfalso | lia].
      assert (1024 ^ (i + 1) <= 1024 ^ 5) by (apply Z.pow_le_mono_r; lia).
      apply (Qlt_irrefl q). eapply Qlt_le_trans; [exact Hhi|].
      eapply Qle_trans; [|exact H5q]. now rewrite <- Zle_Qle. }
    unfold human_bytes. fold q.
    assert (Qle_bool (inject_Z Py.float_overflow) q = false) as ->.
    { destruct (Qle_bool _ q) eqn:E; [|reflexivity].
      apply Qle_bool_iff in E. unfold q in E. rewrite <- Zle_Qle in E. lia. }
    assert (Qle_bool q (inject_Z (- Py.float_overflow)) = false) as ->.
    { destruct (Qle_bool q _) eqn:E; [|reflexivity].
      apply Qle_bool_iff in E. unfold q in E. rewrite <- Zle_Qle in E. lia. }
    cbn [orb].
    assert (Qeq_bool q 0 = false) as ->.
    { destruct (Qeq_bool q 0) eqn:E; [|reflexivity].
      apply Qeq_bool_iff in E. exfalso. clear - H1 E. lra. }
    assert (Qle_bool q 0 = false) as ->.
    { destruct (Qle_bool q 0) eqn:E; [|reflexivity].
      apply Qle_bool_iff in E. exfalso. clear - H1 E. lra. }
    fold i. now rewrite (index_units_out i Hi).
  - intros [Hf Hn]. set (q := inject_Z n).
    assert (Hq : (q < 0)%Q)
      by (unfold q; change 0%Q with (inject_Z 0); now rewrite <- Zlt_Qlt).
    unfold human_bytes. fold q.
    assert (Qle_bool (inject_Z Py.float_overflow) q = false) as ->.
    { destruct (Qle_bool _ q) eqn:E; [|reflexivity].
      apply Qle_bool_iff in E. unfold q in E. rewrite <- Zle_Qle in E. lia. }
    assert (Qle_bool q (inject_Z (- Py.float_overflow)) = false) as ->.
    { destruct (Qle_bool q _) eqn:E; [|reflexivity].
      apply Qle_bool_iff in E. unfold q in E. rewrite <- Zle_Qle in E. lia. }
    cbn [orb].
    assert (Qeq_bool q 0 = false) as ->.
    { destruct (Qeq_bool q 0) eqn:E; [|reflexivity].
      apply Qeq_bool_iff in E. exfalso. clear - Hq E. lra. }
    assert (Qle_bool q 0 = true) as ->
      by (apply Qle_bool_iff; clear - Hq; lra).
    reflexivity.
  - intros H. unfold human_bytes.
    assert (Qle_bool (inject_Z Py.float_overflow) (inject_Z n)
            || Qle_bool (inject_Z n) (inject_Z (- Py.float_overflow)) = true)
      as ->; [|reflexivity].
    apply orb_true_iff.
    destruct H as [H | H]; [left | right]; apply Qle_bool_iff;
      now rewrite <- Zle_Qle.
Qed.

Lemma human_bytes_errors_witness :
  human_bytes (Num (inject_Z (1024 ^ 5 + 1))) = Raise IndexError.
Proof.
  apply (proj1 (human_bytes_errors (1024 ^ 5 + 1))).
  split; [apply Z.leb_le | apply Z.ltb_lt]; vm_compute; reflexivity.
Defined.

(** ** The download view: what it does before and besides the command *)

(** X11.  The destination is resolved before the request is checked.  A
    request without URL whose [download_path] gives a destination is
    answered 400, and the directory has been created all the same; when the
    destination cannot be resolved or created, the request ends with that
    exception (a 500 answer), whatever else it carries. *)
Theorem progress_creates_before_check
        (YT_DLP FFMPEG : string) (unquote : string -> string)
        (r : progress_request) (w : Pathlib.world) :
  (forall (dest : string) (w' : Pathlib.world),
      Text.nonempty (req_url r) = false ->
      Text.nonempty (req_download_path unquote r) = true ->
      safe_path (req_download_path unquote r) w = (Ret dest, w') ->
      progress YT_DLP FFMPEG unquote r w
      = (Ret (Answer {| status := 400; payload := ErrorBody "Missing url" |}),
         w')
      /\ exists t, dest = Pathlib.render t
                   /\ t ∈ Pathlib.dirs w'
                   /\ Pathlib.dirs w ⊆ Pathlib.dirs w')
  /\ (forall (x : exn) (w' : Pathlib.world),
        safe_path (req_download_path unquote r) w = (Raise x, w') ->
        progress YT_DLP FFMPEG unquote r w = (Raise x, w')).
Proof.
  split.
  - intros dest w' Hu Hn H. split.
    + unfold progress. rewrite H. cbn [bind]. now rewrite Hu.
    + destruct (safe_path_returns _ dest w w' Hn H)
        as (e & t & _ & _ & -> & Hd & _).
      exists t. split; [reflexivity|]. split.
      * apply Hd. now right.
      * intros a Ha. apply Hd. now left.
  - intros x w' H. unfold progress. now rewrite H.
Qed.

Lemma progress_creates_before_check_witness :
  let r := {| p_url := None; p_quality := None;
              p_download_path := Some "~/dl"; p_is_playlist := None |} in
  let w' := snd (safe_path "~/dl" sample_world) in
  progress "yt-dlp" "ffmpeg" (fun s => s) r sample_world
  = (Ret (Answer {| status := 400; payload := ErrorBody "Missing url" |}), w')
  /\ exists t, "/home/me/dl" = Pathlib.render t
               /\ t ∈ Pathlib.dirs w'
               /\ Pathlib.dirs sample_world ⊆ Pathlib.dirs w'.
Proof.
  intros r w'.
  apply (proj1 (progress_creates_before_check
                  "yt-dlp" "ffmpeg" (fun s => s) r sample_world)
               "/home/me/dl" w' eq_refl eq_refl).
  vm_compute. reflexivity.
Defined.

(** X12.  For a playlist the quality selector of the caller is ignored: the
    view does the same whatever selector the request carries. *)
Theorem progress_playlist_ignores_quality
        (YT_DLP FFMPEG : string) (unquote : string -> string)
        (r : progress_request) (q : option string) (w : Pathlib.world) :
  playlist_mode r = true ->
  progress YT_DLP FFMPEG unquote (with_quality r q) w
  = progress YT_DLP FFMPEG unquote r w.
Proof.
  intros Hm. unfold progress.
  change (req_url (with_quality r q)) with (req_url r).
  change (req_download_path unquote (with_quality r q))
    with (req_download_path unquote r).
  change (playlist_mode (with_quality r q)) with (playlist_mode r).
  rewrite Hm. reflexivity.
Qed.

Lemma progress_playlist_ignores_quality_witness :
  progress "yt-dlp" "ffmpeg" (fun s => s)
    (with_quality
       {| p_url := Some "https://youtube.com/playlist?list=PL1";
          p_quality := Some "137"; p_download_path := None;
          p_is_playlist := None |} None)
    sample_world
  = progress "yt-dlp" "ffmpeg" (fun s => s)
      {| p_url := Some "https://youtube.com/playlist?list=PL1";
         p_quality := Some "137"; p_download_path := None;
         p_is_playlist := None |}
      sample_world.
Proof.
  apply (progress_playlist_ignores_quality "yt-dlp" "ffmpeg" (fun s => s)).
  reflexivity.
Defined.

Lemma in_append_r (c : ascii) (a b : string) :
  In c (list_ascii_of_string b) -> In c (list_ascii_of_string (a ++ b)).
Proof.
  intros H. induction a as [|x a IH]; [exact H|].
  rewrite append_cons. right. exact IH.
Qed.

Lemma last_of_command (a b c : list string) (x y u : string) :
  List.last (a ++ b ++ c ++ [x; y; u])%list "" = u.
Proof.
  change [x; y; u] with ([x; y] ++ [u])%list.
  rewrite !List.app_assoc. apply List.last_last.
Qed.

(** X13.  Every command the view builds starts with the tool and
    [--newline], asks with [-f] for a format selector that contains a ['+']
    (a video and an audio part), and ends with the URL of the request,
    which is not empty. *)
Theorem progress_command_shape
        (YT_DLP FFMPEG : string) (unquote : string -> string)
        (r : progress_request) (w w' : Pathlib.world) (cmd : list string) :
  progress YT_DLP FFMPEG unquote r w = (Ret (EventStream cmd), w') ->
  (exists selector rest,
      cmd = (YT_DLP :: "--newline" :: "-f" :: selector :: rest)%list
      /\ In "+"%char (list_ascii_of_string selector))
  /\ List.last cmd "" = req_url r
  /\ Text.nonempty (req_url r) = true.
Proof.
  unfold progress. destruct (safe_path _ w) as [[dest|e] w1]; [|discriminate].
  cbn [bind]. destruct (Text.nonempty (req_url r)) eqn:Hu; [|discriminate].
  cbn [negb]. destruct (playlist_mode r).
  - intros [= <- _]. split; [|split; [|reflexivity]].
    + eexists _, _. split; [reflexivity|]. vm_compute. tauto.
    + apply (last_of_command
               [YT_DLP; "--newline"]
               ["-f"; default_playlist_format; "--yes-playlist"]
               (ffmpeg_args FFMPEG)).
  - destruct (Text.nonempty (req_quality r)); [|discriminate]. cbn [negb].
    intros [= <- _]. split; [|split; [|reflexivity]].
    + eexists _, _. split; [reflexivity|].
      destruct (Text.contains "+" (req_quality r)) eqn:E; cbn [negb].
      * now apply contains_plus_iff.
      * apply in_append_r. now left.
    + apply (last_of_command [YT_DLP; "--newline"]
                             ["-f"; _; "--no-playlist"] (ffmpeg_args FFMPEG)).
Qed.

Lemma progress_command_shape_witness :
  (exists selector rest,
      ["yt-dlp"; "--newline"; "-f"; "137+ba"; "--no-playlist";
       "--ffmpeg-location"; "ffmpeg"; "-o"; "/srv/app/%(title)s.%(ext)s";
       "https://youtu.be/abc"]
      = ("yt-dlp" :: "--newline" :: "-f" :: selector :: rest)%list
      /\ In "+"%char (list_ascii_of_string selector))
  /\ List.last ["yt-dlp"; "--newline"; "-f"; "137+ba"; "--no-playlist";
                "--ffmpeg-location"; "ffmpeg"; "-o";
                "/srv/app/%(title)s.%(ext)s"; "https://youtu.be/abc"] ""
     = req_url sample_progress_request
  /\ Text.nonempty (req_url sample_progress_request) = true.
Proof.
  apply (progress_command_shape "yt-dlp" "ffmpeg" (fun s => s)
                                sample_progress_request
                                sample_world sample_world).
  reflexivity.
Defined.

(** ** [safe_path] on its own result *)

Lemma safe_path_of_rendered (t : Pathlib.path) (w : Pathlib.world) :
  tidy_path t = true ->
  (forall a, a `prefix_of` t -> a ∈ Pathlib.dirs w) ->
  safe_path (Pathlib.render t) w = (Ret (Pathlib.render t), w).
Proof.
  intros Ht Hd. unfold safe_path.
  assert (Text.nonempty (Pathlib.render t) = true) as -> by reflexivity.
  cbn [negb]. rewrite (parse_render t Ht).
  cbn [Pathlib.expanduser Pathlib.anchored bind].
  unfold Pathlib.resolve. cbn [Pathlib.anchored Pathlib.parts].
  rewrite (walk_existing w t Ht Hd).
  unfold Pathlib.mkdir_parents. rewrite mkdir_each_present; [reflexivity|].
  intros a Ha. now apply Hd, elem_of_prefixes.
Qed.

(** X14.  In a world in order, [safe_path] is idempotent: given the
    destination it returned, it returns the same destination and creates
    nothing more. *)
Theorem safe_path_idempotent (p dest : string) (w w' : Pathlib.world) :
  tidy_world w ->
  safe_path p w = (Ret dest, w') ->
  safe_path dest w' = (Ret dest, w').
Proof.
  intros (Hc & Hh & Hd & Hl) H.
  destruct (Text.nonempty p) eqn:Hn.
  - destruct (safe_path_returns p dest w w' Hn H)
      as (e & t & He & Hr & -> & Hcr & _).
    apply safe_path_of_rendered.
    + unfold Pathlib.resolve in Hr.
      apply (walk_tidy w _ _ t Hl (expanduser_parts_ok w p e Hh He)) in Hr;
        [exact Hr|].
      destruct (Pathlib.anchored e); [reflexivity | exact Hc].
    + intros a Ha. apply Hcr. now right.
  - unfold safe_path in H. rewrite Hn in H. injection H as <- <-.
    now apply safe_path_of_rendered.
Qed.

Lemma safe_path_idempotent_witness :
  let w' := snd (safe_path "~/dl/../videos" sample_world) in
  safe_path "/home/me/videos" w' = (Ret "/home/me/videos", w').
Proof.
  intros w'.
  apply (safe_path_idempotent "~/dl/../videos" "/home/me/videos" sample_world).
  - split; [reflexivity | split; [|split]].
    + intros u h. cbn. destruct (String.eqb u ""); [|discriminate].
      now intros [= <-].
    + intros a Ha. apply elem_of_prefixes in Ha. cbn in Ha.
      cbn [Pathlib.dirs sample_world].
      rewrite !elem_of_cons in Ha. rewrite !elem_of_union, !elem_of_singleton.
      destruct Ha as [-> | [-> | [-> | Ha]]]; auto 10.
      now apply not_elem_of_nil in Ha.
    + intros a t Ha. cbn [Pathlib.links sample_world] in Ha.
      apply lookup_singleton_Some in Ha as [_ <-]. reflexivity.
  - vm_compute. reflexivity.
Defined.

(** ** The interactive variant: download, playlist and choice *)

Section CliMore.

Variable YT_DLP FFMPEG : string.
Variable subprocess_run : list string -> Cli.files -> Cli.run_outcome * Cli.files.

Let video_cmd (url video_fmt : string) : list string :=
  [YT_DLP; "-f"; video_fmt; "-o"; "video_temp.mp4"; url].
Let audio_cmd (url audio_fmt : string) : list string :=
  [YT_DLP; "-f"; audio_fmt; "-o"; "audio_temp.m4a"; url].
Let merge_cmd (output_name : string) : list string :=
  [FFMPEG; "-y"; "-i"; "video_temp.mp4"; "-i"; "audio_temp.m4a";
   "-c"; "copy"; output_name].

Lemma run_cmd_some (cmd : list string) (fs fs' : Cli.files) (out : string) :
  Cli.run_cmd subprocess_run cmd fs = (Ret (Some out), fs') <->
  exists err, subprocess_run cmd fs = (Cli.Completed out err 0, fs').
Proof.
  unfold Cli.run_cmd.
  destruct (subprocess_run cmd fs) as [[o e c | | x] fs1].
  - destruct (Z.eqb_spec c 0) as [-> | Hc]; cbn [negb].
    + split; [intros [= -> ->]; eauto | intros (err & [= -> _ ->]); reflexivity].
    + split; [discriminate | intros (err & [= _ _ -> _]); congruence].
  - split; [discriminate | intros (err & H); discriminate].
  - split; [discriminate | intros (err & H); discriminate].
Qed.

Lemma download_steps_true (url video_fmt audio_fmt output_name : string)
      (fs fs3 : Cli.files) :
  Cli.download_steps YT_DLP FFMPEG subprocess_run
                     url video_fmt audio_fmt output_name fs = (Ret true, fs3)
  <-> exists fs1 fs2,
        succeeds subprocess_run (video_cmd url video_fmt) fs fs1
        /\ succeeds subprocess_run (audio_cmd url audio_fmt) fs1 fs2
        /\ succeeds subprocess_run (merge_cmd output_name) fs2 fs3.
Proof.
  unfold Cli.download_steps, Cli.bindM, Cli.ret, Cli.video_file, Cli.audio_file.
  fold (video_cmd url video_fmt) (audio_cmd url audio_fmt)
       (merge_cmd output_name).
  split.
  - intros H.
    destruct (Cli.run_cmd subprocess_run (video_cmd url video_fmt) fs)
      as [[[o1|]|x1] fs1] eqn:E1; try discriminate H.
    destruct (Cli.run_cmd subprocess_run (audio_cmd url audio_fmt) fs1)
      as [[[o2|]|x2] fs2] eqn:E2; try discriminate H.
    destruct (Cli.run_cmd subprocess_run (merge_cmd output_name) fs2)
      as [[[o3|]|x3] fs3'] eqn:E3; try discriminate H.
    injection H as <-.
    apply run_cmd_some in E1 as [e1 E1]. apply run_cmd_some in E2 as [e2 E2].
    apply run_cmd_some in E3 as [e3 E3].
    exists fs1, fs2. unfold succeeds. eauto 10.
  - intros (fs1 & fs2 & (o1 & e1 & H1) & (o2 & e2 & H2) & (o3 & e3 & H3)).
    assert (Cli.run_cmd subprocess_run (video_cmd url video_fmt) fs
            = (Ret (Some o1), fs1)) as -> by (apply run_cmd_some; eauto).
    assert (Cli.run_cmd subprocess_run (audio_cmd url audio_fmt) fs1
            = (Ret (Some o2), fs2)) as -> by (apply run_cmd_some; eauto).
    assert (Cli.run_cmd subprocess_run (merge_cmd output_name) fs2
            = (Ret (Some o3), fs3)) as -> by (apply run_cmd_some; eauto).
    reflexivity.
Qed.

(** X15.  [download_and_merge] returns [True] exactly when the video
    download, the audio download and the merge each complete with exit code
    0, each run on the files the previous one left, and [os.remove] refuses
    neither temporary name as the merge leaves them (a directory, or a file
    the process may not remove).  When the video download exits with another
    code, neither the audio download nor the merge is run, and the result is
    [False] unless a removal is refused. *)
Theorem download_and_merge_result
        (url video_fmt audio_fmt output_name : string) (fs : Cli.files) :
  (fst (Cli.download_and_merge YT_DLP FFMPEG subprocess_run
          url video_fmt audio_fmt output_name fs) = Ret true
   <-> exists fs1 fs2 fs3,
         succeeds subprocess_run (video_cmd url video_fmt) fs fs1
         /\ succeeds subprocess_run (audio_cmd url audio_fmt) fs1 fs2
         /\ succeeds subprocess_run (merge_cmd output_name) fs2 fs3
         /\ ~ blocked fs3 "video_temp.mp4"
         /\ ~ blocked fs3 "audio_temp.m4a")
  /\ (forall out err code fs1,
        subprocess_run (video_cmd url video_fmt) fs
        = (Cli.Completed out err code, fs1) ->
        code <> 0 ->
        Cli.download_steps YT_DLP FFMPEG subprocess_run
          url video_fmt audio_fmt output_name fs = (Ret false, fs1)
        /\ (~ blocked fs1 "video_temp.mp4" -> ~ blocked fs1 "audio_temp.m4a" ->
            fst (Cli.download_and_merge YT_DLP FFMPEG subprocess_run
                   url video_fmt audio_fmt output_name fs) = Ret false)).
Proof.
  unfold Cli.download_and_merge, Cli.try_finally. split.
  - split.
    + destruct (Cli.download_steps _ _ _ _ _ _ _ fs) as [r fs3] eqn:Es.
      destruct (Cli.cleanup fs3) as [[[]|x] fs'] eqn:Ec; [|discriminate].
      cbn [fst]. intros ->. apply download_steps_true in Es as (fs1 & fs2 & H).
      assert (Hc : exists fs', Cli.cleanup fs3 = (Ret tt, fs')) by eauto.
      apply cleanup_returns in Hc as [Hv Ha].
      exists fs1, fs2, fs3. tauto.
    + intros (fs1 & fs2 & fs3 & H1 & H2 & H3 & Hv & Ha).
      assert (Es : Cli.download_steps YT_DLP FFMPEG subprocess_run
                     url video_fmt audio_fmt output_name fs = (Ret true, fs3))
        by (apply download_steps_true; eauto).
      rewrite Es.
      destruct (proj2 (cleanup_returns fs3) (conj Hv Ha)) as [fs' ->].
      reflexivity.
  - intros out err code fs1 H Hc.
    assert (Es : Cli.download_steps YT_DLP FFMPEG subprocess_run
                   url video_fmt audio_fmt output_name fs = (Ret false, fs1)).
    { unfold Cli.download_steps, Cli.bindM, Cli.run_cmd, Cli.video_file.
      fold (video_cmd url video_fmt). rewrite H.
      destruct (Z.eqb_spec code 0) as [-> | _]; [congruence|]. reflexivity. }
    split; [exact Es|]. intros Hv Ha. rewrite Es.
    destruct (proj2 (cleanup_returns fs1) (conj Hv Ha)) as [fs' ->].
    reflexivity.
Qed.

End CliMore.

Lemma download_and_merge_result_witness :
  fst (Cli.download_and_merge "yt-dlp" "ffmpeg" sample_cli_run
         "https://youtu.be/abc" "137" "140" "clip.mp4" ∅) = Ret true.
Proof.
  apply (proj1 (download_and_merge_result
                  "yt-dlp" "ffmpeg" sample_cli_run
                  "https://youtu.be/abc" "137" "140" "clip.mp4" ∅)).
  exists ∅, ∅, ∅. repeat split; try (eexists _, _; reflexivity);
    intros [H | H]; discriminate.
Defined.


Section Playlist.

Variable YT_DLP : string.
Variable subprocess_run : list string -> Cli.files -> Cli.run_outcome * Cli.files.

(** Every command completes, with whatever exit code. *)
Hypothesis completes :
  forall cmd fs, exists out err code,
    fst (subprocess_run cmd fs) = Cli.Completed out err code.

Lemma run_cmd_completes (cmd : list string) (fs : Cli.files) :
  exists o, Cli.run_cmd subprocess_run cmd fs
            = (Ret o, snd (subprocess_run cmd fs)).
Proof.
  unfold Cli.run_cmd. destruct (completes cmd fs) as (out & err & code & H).
  destruct (subprocess_run cmd fs) as [r fs']. cbn [fst snd] in *. subst r.
  destruct (negb (code =? 0)); eauto.
Qed.

Lemma playlist_cmd_downloadable (i : Z) (e : entry) :
  downloadable e ->
  exists vid_id title,
    e = Entry (Some vid_id) title
    /\ Cli.playlist_cmd YT_DLP i e
       = Ret [YT_DLP; "-f"; default_playlist_format; "-o";
              Cli.safe_filename (title_of i title) ++ ".%(ext)s"; vid_id].
Proof.
  destruct e as [[vid|] title|]; try contradiction. cbn [downloadable].
  intros Ht. exists vid, title. split; [reflexivity|].
  destruct title; [reflexivity | congruence | reflexivity].
Qed.

Lemma playlist_cmd_refused (i : Z) (e : entry) :
  ~ downloadable e ->
  exists x, Cli.playlist_cmd YT_DLP i e = Raise x
            /\ (x = TypeError \/ x = AttributeError).
Proof.
  destruct e as [[vid|] title|]; cbn [downloadable Cli.playlist_cmd].
  - destruct title; try (intros H; exfalso; apply H; discriminate).
    intros _. cbn [get_default]. eauto.
  - intros _. destruct (get_default title _); eauto.
  - eauto.
Qed.

Lemma playlist_loop_all (i : Z) (entries : list entry) (fs : Cli.files) :
  Forall downloadable entries ->
  Cli.playlist_loop YT_DLP subprocess_run i entries fs
  = (Ret tt, files_after subprocess_run (planned_cmds YT_DLP i entries) fs).
Proof.
  intros H. revert i fs. induction H as [|e entries He _ IH]; intros i fs.
  - reflexivity.
  - destruct (playlist_cmd_downloadable i e He) as (vid & title & -> & Hc).
    cbn [Cli.playlist_loop planned_cmds files_after fold_left].
    unfold Cli.bindM at 1. unfold Cli.playlist_item. rewrite Hc.
    unfold Cli.bindM at 1.
    destruct (run_cmd_completes
                [YT_DLP; "-f"; default_playlist_format; "-o";
                 Cli.safe_filename (title_of i title) ++ ".%(ext)s"; vid] fs)
      as [o ->].
    unfold Cli.ret at 1. apply IH.
Qed.

Lemma playlist_loop_stops (i : Z) (pre post : list entry) (e : entry)
      (fs : Cli.files) :
  Forall downloadable pre -> ~ downloadable e ->
  exists x,
    (x = TypeError \/ x = AttributeError)
    /\ Cli.playlist_loop YT_DLP subprocess_run i (pre ++ e :: post) fs
       = (Raise x, files_after subprocess_run (planned_cmds YT_DLP i pre) fs).
Proof.
  intros H He. revert i fs. induction H as [|y pre Hy _ IH]; intros i fs.
  - destruct (playlist_cmd_refused i e He) as (x & Hx & Hk).
    exists x. split; [exact Hk|].
    cbn [List.app Cli.playlist_loop]. unfold Cli.bindM, Cli.playlist_item.
    rewrite Hx. reflexivity.
  - destruct (playlist_cmd_downloadable i y Hy) as (vid & title & -> & Hc).
    destruct (IH (i + 1)
                 (snd (subprocess_run
                         [YT_DLP; "-f"; default_playlist_format; "-o";
                          Cli.safe_filename (title_of i title) ++ ".%(ext)s";
                          vid] fs)))
      as (x & Hk & Hx).
    exists x. split; [exact Hk|].
    cbn [List.app Cli.playlist_loop planned_cmds files_after fold_left].
    unfold Cli.bindM at 1. unfold Cli.playlist_item. rewrite Hc.
    unfold Cli.bindM at 1.
    destruct (run_cmd_completes
                [YT_DLP; "-f"; default_playlist_format; "-o";
                 Cli.safe_filename (title_of i title) ++ ".%(ext)s"; vid] fs)
      as [o ->].
    unfold Cli.ret at 1. exact Hx.
Qed.

End Playlist.

Lemma planned_cmds_length (YT_DLP : string) (i : Z) (entries : list entry) :
  Forall downloadable entries ->
  List.length (planned_cmds YT_DLP i entries) = List.length entries.
Proof.
  intros H. revert i. induction H as [|e entries He _ IH]; intros i;
    [reflexivity|].
  destruct e as [[vid|] title|]; try contradiction.
  cbn [planned_cmds List.length]. now rewrite IH.
Qed.

(** X16.  When every command completes, the loop of [download_playlist]
    runs one download per entry, in order, whatever the exit codes, as long
    as the entries are objects with a ["url"] and a title that is not
    [null]: a failed download does not stop the others.  The first entry
    that is not so stops the loop with a [TypeError] or an
    [AttributeError], after the downloads of the entries before it. *)
Theorem playlist_downloads_every_entry
        (YT_DLP : string)
        (subprocess_run : list string -> Cli.files -> Cli.run_outcome * Cli.files)
        (i : Z) (pre post : list entry) (e : entry) (fs : Cli.files) :
  (forall cmd fs, exists out err code,
      fst (subprocess_run cmd fs) = Cli.Completed out err code) ->
  Forall downloadable pre ->
  Cli.playlist_loop YT_DLP subprocess_run i pre fs
  = (Ret tt, files_after subprocess_run (planned_cmds YT_DLP i pre) fs)
  /\ List.length (planned_cmds YT_DLP i pre) = List.length pre
  /\ (~ downloadable e ->
      exists x,
        (x = TypeError \/ x = AttributeError)
        /\ Cli.playlist_loop YT_DLP subprocess_run i (pre ++ e :: post) fs
           = (Raise x,
              files_after subprocess_run (planned_cmds YT_DLP i pre) fs)).
Proof.
  intros Hc Hp. split; [now apply playlist_loop_all|].
  split; [now apply planned_cmds_length|].
  intros He. now apply playlist_loop_stops.
Qed.

Lemma playlist_downloads_every_entry_witness :
  Cli.playlist_loop "yt-dlp" sample_cli_run 1 sample_entries ∅
  = (Ret tt,
     files_after sample_cli_run (planned_cmds "yt-dlp" 1 sample_entries) ∅)
  /\ List.length (planned_cmds "yt-dlp" 1 sample_entries) = 2%nat.
Proof.
  pose proof (playlist_downloads_every_entry
                "yt-dlp" sample_cli_run 1 sample_entries []
                (Entry (Some "https://youtu.be/c") Null) ∅) as H.
  destruct H as (H1 & H2 & _).
  - intros cmd fs. eexists _, _, _. reflexivity.
  - repeat constructor; discriminate.
  - exact (conj H1 H2).
Defined.



(** X18.  [download_playlist] downloads nothing when the listing command
    exits with a code other than 0, prints nothing, prints what the decoder
    refuses, or lists no entry: it returns with the files the listing
    command left.  Otherwise it goes through the entries, numbered from 1. *)
Theorem download_playlist_listing
        (YT_DLP : string)
        (subprocess_run : list string -> Cli.files -> Cli.run_outcome * Cli.files)
        (json_loads : string -> string + option info)
        (url out err : string) (code : Z) (fs fs1 : Cli.files) :
  subprocess_run [YT_DLP; "-J"; "--flat-playlist"; url] fs
  = (Cli.Completed out err code, fs1) ->
  ((code <> 0 \/ out = ""
    \/ (exists msg, json_loads out = inl msg)
    \/ (exists data, json_loads out = inr (Some data)
                     /\ truthy_list (get_default (i_entries data) []) = false)) ->
   Cli.download_playlist YT_DLP subprocess_run json_loads url fs = (Ret tt, fs1))
  /\ (forall data entries,
        code = 0 -> out <> "" -> json_loads out = inr (Some data) ->
        get (i_entries data) = Some entries -> entries <> [] ->
        Cli.download_playlist YT_DLP subprocess_run json_loads url fs
        = Cli.playlist_loop YT_DLP subprocess_run 1 entries fs1).
Proof.
  intros Hrun. unfold Cli.download_playlist, Cli.bindM, Cli.run_cmd.
  rewrite Hrun. split.
  - intros H. destruct (Z.eqb_spec code 0) as [-> | Hc]; [|reflexivity].
    cbn [negb truthy_str]. destruct out as [|c out']; [reflexivity|].
    cbn [Text.nonempty negb]. change (default "" (Some ?x)) with x.
    destruct H as [H | [H | [[msg H] | (data & H & Ht)]]];
      [congruence | discriminate | now rewrite H |].
    rewrite H, Ht. reflexivity.
  - intros data entries -> Ho Hl He Hn. cbn [negb Z.eqb truthy_str].
    destruct out as [|c out']; [congruence|].
    cbn [Text.nonempty negb]. change (default "" (Some ?x)) with x.
    rewrite Hl. destruct (i_entries data) as [| |l]; try discriminate.
    injection He as ->. cbn [get_default].
    destruct entries as [|e entries]; [congruence|]. reflexivity.
Qed.

Lemma download_playlist_listing_witness :
  Cli.download_playlist "yt-dlp" sample_cli_run
                        (fun _ => inl "Expecting value") "https://x/list" ∅
  = (Ret tt, ∅).
Proof.
  apply (proj1 (download_playlist_listing
                  "yt-dlp" sample_cli_run (fun _ => inl "Expecting value")
                  "https://x/list" "{...}" "" 0 ∅ ∅ eq_refl)).
  right. right. left. eexists. reflexivity.
Defined.

(** ** The interactive variant: the choice of the video format *)

Lemma prompt_choice_spec (video_formats : list format) (inputs rest : list string)
      (id : string) :
  Cli.prompt_choice video_formats inputs = (Ret id, rest) ->
  exists skipped line k f,
    inputs = (skipped ++ line :: rest)%list
    /\ Forall (fun l => choice_of (List.length video_formats) l = None) skipped
    /\ choice_of (List.length video_formats) line = Some k
    /\ nth_error video_formats k = Some f
    /\ f_format_id f = Some id.
Proof.
  induction inputs as [|line inputs IH]; [discriminate|].
  cbn [Cli.prompt_choice].
  assert (Hskip : Cli.prompt_choice video_formats inputs = (Ret id, rest) ->
                  choice_of (List.length video_formats) line = None ->
                  exists skipped line0 k f,
                    (line :: inputs = skipped ++ line0 :: rest)%list
                    /\ Forall (fun l => choice_of (List.length video_formats) l
                                        = None) skipped
                    /\ choice_of (List.length video_formats) line0 = Some k
                    /\ nth_error video_formats k = Some f
                    /\ f_format_id f = Some id).
  { intros H Hn. destruct (IH H) as (sk & l0 & k & f & -> & Hs & Hk & Hf & Hi).
    exists (line :: sk), l0, k, f. repeat split; auto. }
  destruct (Int.parse line) as [n|] eqn:Ep;
    [|intros H; apply Hskip; [exact H | unfold choice_of; now rewrite Ep]].
  destruct ((0 <=? n - 1) && (n - 1 <? Z.of_nat (List.length video_formats)))
           eqn:E.
  - apply andb_true_iff in E as [E1 E2].
    apply Z.leb_le in E1. apply Z.ltb_lt in E2.
    intros H. injection H as H ->.
    unfold Py.index in H. cbv zeta in H.
    destruct (n - 1 <? 0) eqn:E3; [lia|].
    destruct ((n - 1 <? 0) || (Z.of_nat (List.length video_formats) <=? n - 1))
             eqn:E4; [rewrite E3 in E4; cbn in E4; lia|].
    destruct (nth_error video_formats (Z.to_nat (n - 1))) as [f|] eqn:Ef;
      [|discriminate].
    cbn [bind] in H. unfold Cli.subscript in H.
    destruct (f_format_id f) as [i|] eqn:Ei; [|discriminate].
    injection H as ->.
    exists [], line, (Z.to_nat (n - 1)), f. repeat split; auto.
    unfold choice_of. rewrite Ep.
    assert ((1 <=? n) && (n <=? Z.of_nat (List.length video_formats)) = true)
      as -> by (apply andb_true_iff; split; lia).
    reflexivity.
  - intros H. apply Hskip; [exact H|]. unfold choice_of. rewrite Ep.
    assert ((1 <=? n) && (n <=? Z.of_nat (List.length video_formats)) = false)
      as ->; [|reflexivity].
    apply andb_false_iff in E. apply andb_false_iff. destruct E as [E | E];
      [left | right]; lia.
Qed.

(** X19.  The format [choose_video_format] returns is the ["format_id"] of a
    listed format: the one at the position given by the first line typed
    that is a number from 1 to the length of the list; the lines before it
    are not such numbers, and the lines after it are left unread. *)
Theorem choose_video_format_first_valid
        (video_formats : list format) (inputs rest : list string) (id : string) :
  Cli.choose_video_format video_formats inputs = (Ret id, rest) ->
  exists skipped line k f,
    inputs = (skipped ++ line :: rest)%list
    /\ Forall (fun l => choice_of (List.length video_formats) l = None) skipped
    /\ choice_of (List.length video_formats) line = Some k
    /\ nth_error video_formats k = Some f
    /\ f_format_id f = Some id.
Proof.
  unfold Cli.choose_video_format.
  destruct (Cli.print_listing video_formats); [|discriminate].
  apply prompt_choice_spec.
Qed.

Lemma choose_video_format_first_valid_witness :
  exists skipped line k f,
    ["x"; "0"; " 2 "; "1"] = (skipped ++ line :: ["1"])%list
    /\ Forall (fun l => choice_of 2 l = None) skipped
    /\ choice_of 2 line = Some k
    /\ nth_error [sample_video "160" 144; sample_video "137" 1080] k = Some f
    /\ f_format_id f = Some "137".
Proof.
  apply (choose_video_format_first_valid
           [sample_video "160" 144; sample_video "137" 1080]
           ["x"; "0"; " 2 "; "1"] ["1"] "137").
  vm_compute. reflexivity.
Defined.

(** ** The interactive variant: the script *)

(** X20.  For a single video the script starts no download unless the tool
    lists both a video-only and an audio-only format: when one of the two
    selections is empty it exits with status 1, and the files are those the
    listing command left. *)
Theorem main_needs_both_lists
        (YT_DLP FFMPEG : string)
        (subprocess_run : list string -> Cli.files -> Cli.run_outcome * Cli.files)
        (json_loads : string -> string + option info)
        (l1 l2 : string) (rest : list string) (fs fs1 : Cli.files)
        (out err : string) (data : info) (formats : list format) :
  String.eqb (Text.lower (Text.strip l2)) "y" = false ->
  subprocess_run [YT_DLP; "-J"; "--no-playlist"; Text.strip l1] fs
  = (Cli.Completed out err 0, fs1) ->
  out <> "" ->
  json_loads out = inr (Some data) ->
  get_default (i_formats data) [] = Some formats ->
  filter video_only formats = [] \/ filter audio_only formats = [] ->
  Cli.main YT_DLP FFMPEG subprocess_run json_loads (l1 :: l2 :: rest) fs
  = (Raise (SystemExit 1), fs1).
Proof.
  intros Hn Hrun Ho Hl Hf He. unfold Cli.main. rewrite Hn.
  unfold Cli.bindM at 1. unfold Cli.get_formats, Cli.bindM at 1.
  unfold Cli.run_cmd. rewrite Hrun. cbn [negb Z.eqb truthy_str].
  destruct out as [|c out']; [congruence|].
  cbn [Text.nonempty negb]. change (default "" (Some ?x)) with x.
  rewrite Hl, Hf, cli_classify_filter. unfold Cli.ret at 1. cbn [fst snd].
  destruct He as [-> | ->]; [reflexivity|].
  destruct (filter video_only formats); reflexivity.
Qed.

Lemma main_needs_both_lists_witness :
  Cli.main "yt-dlp" "ffmpeg" sample_cli_run
           (fun _ => inr (Some {| i_title := Val "clip";
                                  i_formats := Val [sample_muxed];
                                  i_entries := Missing; i_more := true |}))
           ["https://youtu.be/abc"; "n"; "1"] ∅
  = (Raise (SystemExit 1), ∅).
Proof.
  apply (main_needs_both_lists
           "yt-dlp" "ffmpeg" sample_cli_run _ "https://youtu.be/abc" "n" ["1"]
           ∅ ∅ "{...}" ""
           {| i_title := Val "clip"; i_formats := Val [sample_muxed];
              i_entries := Missing; i_more := true |}
           [sample_muxed]).
  - reflexivity.
  - reflexivity.
  - discriminate.
  - reflexivity.
  - reflexivity.
  - left. reflexivity.
Defined.
